(** * Outline extraction (stripe.py): a shallow embedding and its properties

    The program reads text spans out of a PDF, drops the ones that are not
    plausible headings or that sit on a table, takes the largest text of the
    first page as the title and ranks the other spans into H1/H2/H3 by font
    size.  The functions below follow stripe.py one by one and keep its names.

    Data:
    - a Python [str] is the list of its code points;
    - a font size is a Python float, a double.  Every finite double is a whole
      multiple of 2^-1074, and a font size is kept as that whole number
      ([pt 1] is the Python [1]); [float_sub] is the subtraction of doubles
      with its rounding.  Infinities and NaN are not font sizes here;
    - page coordinates are rationals;
    - a dict is an association list in insertion order;
    - the Unicode character database ([str.isspace], [\d], [\w], the case
      folding of [re.IGNORECASE], [unicodedata.normalize]) and
      [fitz.Rect.intersects] are libraries outside the repository: they are
      parameters, with the facts that are used about them stated in a class. *)

From Stdlib Require Import List ZArith NArith QArith Qabs Qround Qminmax.
From Stdlib Require Import Bool Ascii String.
From Stdlib Require Import Lia Lqa Permutation Sorted.
Import ListNotations.

Set Implicit Arguments.

(* ================================================================== *)
(** ** Python strings *)

Definition char := N.
Definition str := list char.

(** A literal of the source, written as a Rocq string. *)
Definition lit (s : string) : str := map N_of_ascii (list_ascii_of_string s).

Definition char_eqb (a b : char) : bool := N.eqb a b.

Fixpoint str_eqb (a b : str) : bool :=
  match a, b with
  | [], [] => true
  | x :: a', y :: b' => char_eqb x y && str_eqb a' b'
  | _, _ => false
  end.

(** [c in s] for a one-character [c]. *)
Definition char_in (c : char) (s : str) : bool := existsb (char_eqb c) s.

(** [sep.join(parts)] *)
Fixpoint join (sep : str) (parts : list str) : str :=
  match parts with
  | [] => []
  | [p] => p
  | p :: rest => p ++ sep ++ join sep rest
  end.

(** [len(s)] *)
Definition len (s : str) : nat := List.length s.

(** [bool(s)] of a string: it is not empty. *)
Definition nonempty (s : str) : bool :=
  match s with [] => false | _ :: _ => true end.

(** The tables of the Unicode character database that the program reaches
    through [str.strip], [re] and [unicodedata]. *)
Class Unicode := {
  isspace : char -> bool;          (* str.isspace of one character; also \s *)
  isdecimal : char -> bool;        (* \d *)
  isalnum : char -> bool;          (* \w is isalnum or an underscore *)
  casefold_eq : char -> char -> bool;
    (* re.IGNORECASE: does the letter of the pattern match this character *)
  nfc : str -> str                 (* unicodedata.normalize("NFC", _) *)
}.

(** The same tables on the ASCII range. *)
Definition is_ascii (c : char) : bool := (c <? 128)%N.

Definition all_ascii (s : str) : bool := forallb is_ascii s.

Definition ascii_isspace (c : char) : bool :=
  ((9 <=? c) && (c <=? 13) || (28 <=? c) && (c <=? 32))%N.

Definition ascii_isdigit (c : char) : bool := ((48 <=? c) && (c <=? 57))%N.

Definition ascii_isupper (c : char) : bool := ((65 <=? c) && (c <=? 90))%N.

Definition ascii_islower (c : char) : bool := ((97 <=? c) && (c <=? 122))%N.

Definition ascii_isalnum (c : char) : bool :=
  ascii_isdigit c || ascii_isupper c || ascii_islower c.

Definition ascii_lower (c : char) : char :=
  if ascii_isupper c then (c + 32)%N else c.

(** U+2022 BULLET *)
Definition bullet : char := 0x2022%N.

(** What is used of the character database: its values on ASCII, and that
    a bullet is a symbol that is no space, no digit, no letter and is its own
    normal form. *)
Class UnicodeFacts (U : Unicode) : Prop := {
  isspace_ascii : forall c, is_ascii c = true -> isspace c = ascii_isspace c;
  isdecimal_ascii : forall c, is_ascii c = true -> isdecimal c = ascii_isdigit c;
  isalnum_ascii : forall c, is_ascii c = true -> isalnum c = ascii_isalnum c;
  casefold_ascii : forall p c, is_ascii p = true -> is_ascii c = true ->
    casefold_eq p c = char_eqb (ascii_lower p) (ascii_lower c);
  nfc_ascii : forall s, all_ascii s = true -> nfc s = s;
  isspace_bullet : isspace bullet = false;
  isdecimal_bullet : isdecimal bullet = false;
  casefold_bullet : forall p, is_ascii p = true -> casefold_eq p bullet = false;
  nfc_bullet : forall s, forallb (char_eqb bullet) s = true -> nfc s = s
}.

(** A table that knows the ASCII range only.  It agrees with the character
    database on ASCII text and on bullets ([ascii_tables_facts] and the
    lemmas [*_ascii], [is_valid_heading_bullets] below), which is all it is
    run on. *)
Definition ascii_tables : Unicode := {|
  isspace := ascii_isspace;
  isdecimal := ascii_isdigit;
  isalnum := ascii_isalnum;
  casefold_eq := fun p c => char_eqb (ascii_lower p) (ascii_lower c);
  nfc := fun s => s
|}.

Section Strings.
Context {U : Unicode}.

Fixpoint lstrip (s : str) : str :=
  match s with
  | [] => []
  | c :: s' => if isspace c then lstrip s' else s
  end.

Definition rstrip (s : str) : str := rev (lstrip (rev s)).

(** [s.strip()] *)
Definition strip (s : str) : str := rstrip (lstrip s).
End Strings.

(* ================================================================== *)
(** ** Regular expressions, as far as the patterns of the source go *)

Module Re.

Inductive regex : Type :=
| Nul : regex                          (* matches nothing *)
| Eps : regex                          (* the empty string *)
| Cls : (char -> bool) -> regex        (* one character of a class *)
| Seq : regex -> regex -> regex
| Alt : regex -> regex -> regex
| Star : regex -> regex.

Fixpoint nullable (r : regex) : bool :=
  match r with
  | Nul => false
  | Eps => true
  | Cls _ => false
  | Seq a b => nullable a && nullable b
  | Alt a b => nullable a || nullable b
  | Star _ => true
  end.

(** What is left of [r] after the character [c]. *)
Fixpoint deriv (c : char) (r : regex) : regex :=
  match r with
  | Nul => Nul
  | Eps => Nul
  | Cls p => if p c then Eps else Nul
  | Seq a b =>
      if nullable a then Alt (Seq (deriv c a) b) (deriv c b)
      else Seq (deriv c a) b
  | Alt a b => Alt (deriv c a) (deriv c b)
  | Star a => Seq (deriv c a) (Star a)
  end.

(** The whole of [s] is a word of [r]. *)
Fixpoint fullmatch (r : regex) (s : str) : bool :=
  match s with
  | [] => nullable r
  | c :: s' => fullmatch (deriv c r) s'
  end.

Definition Chr (c : char) : regex := Cls (char_eqb c).
Definition Plus (r : regex) : regex := Seq r (Star r).
Definition Opt (r : regex) : regex := Alt r Eps.

(** [r{1,2}] and [r{n}] *)
Definition Rep12 (r : regex) : regex := Seq r (Opt r).
Fixpoint Rep (n : nat) (r : regex) : regex :=
  match n with
  | O => Eps
  | S n' => Seq r (Rep n' r)
  end.

Fixpoint Word (cls : char -> regex) (s : str) : regex :=
  match s with
  | [] => Eps
  | c :: s' => Seq (cls c) (Word cls s')
  end.

(** Two expressions of one shape whose classes agree on the characters
    that satisfy [P]. *)
Inductive agree (P : char -> Prop) : regex -> regex -> Prop :=
| agree_Nul : agree P Nul Nul
| agree_Eps : agree P Eps Eps
| agree_Cls : forall p q, (forall c, P c -> p c = q c) -> agree P (Cls p) (Cls q)
| agree_Seq : forall a a' b b',
    agree P a a' -> agree P b b' -> agree P (Seq a b) (Seq a' b')
| agree_Alt : forall a a' b b',
    agree P a a' -> agree P b b' -> agree P (Alt a b) (Alt a' b')
| agree_Star : forall a a', agree P a a' -> agree P (Star a) (Star a').

(** [re.match("^" r "$", s) is not None].  Without re.MULTILINE, [$] holds
    at the end of the string and just before a newline that ends it. *)
Definition match_anchored (r : regex) (s : str) : bool :=
  fullmatch (Seq r (Opt (Chr 10%N))) s.

End Re.

(* ================================================================== *)
(** ** Normalize and validate heading *)

Definition MIN_HEADING_LEN : nat := 2.
Definition MAX_HEADING_CHARS : nat := 120.

(** The characters of the literal of line 22 of the source, as the file has
    them: FULL STOP, U+00C2, U+00B7 MIDDLE DOT, U+00E2, U+20AC, U+00A2,
    HYPHEN-MINUS, LOW LINE. *)
Definition filler_chars : str :=
  [46; 0xC2; 0xB7; 0xE2; 0x20AC; 0xA2; 45; 95]%N.

Section Validate.
Context {U : Unicode}.
Import Re.

Definition normalize_text (text : str) : str := nfc (strip text).

(** A letter of a pattern under re.IGNORECASE, [\s], [\d], [[\W_]]. *)
Definition ci (c : char) : regex := Cls (casefold_eq c).
Definition ws : regex := Cls isspace.
Definition dg : regex := Cls isdecimal.
Definition nonword_or_underscore (c : char) : bool :=
  negb (isalnum c || char_eqb c 95%N) || char_eqb c 95%N.

(** [(Page\s+\d+|May\s+\d{1,2},\s+\d{4}|Version\s+\d{4})], re.IGNORECASE *)
Definition re_page_date_version : regex :=
  Alt (Seq (Word ci (lit "Page")) (Seq (Plus ws) (Plus dg)))
   (Alt (Seq (Word ci (lit "May"))
          (Seq (Plus ws) (Seq (Rep12 dg) (Seq (Chr 44%N)
            (Seq (Plus ws) (Rep 4 dg))))))
        (Seq (Word ci (lit "Version")) (Seq (Plus ws) (Rep 4 dg)))).

(** [\d{1,2}:\d{2}\s*(AM|PM|a\.m\.|p\.m\.)], re.IGNORECASE *)
Definition re_clock : regex :=
  Seq (Rep12 dg) (Seq (Chr 58%N) (Seq (Rep 2 dg) (Seq (Star ws)
    (Alt (Word ci (lit "AM"))
    (Alt (Word ci (lit "PM"))
    (Alt (Seq (ci 97%N) (Seq (Chr 46%N) (Seq (ci 109%N) (Chr 46%N))))
         (Seq (ci 112%N) (Seq (Chr 46%N) (Seq (ci 109%N) (Chr 46%N)))))))))).

(** [\d{1,2}/\d{1,2}/\d{4}] *)
Definition re_slash_date : regex :=
  Seq (Rep12 dg) (Seq (Chr 47%N) (Seq (Rep12 dg) (Seq (Chr 47%N) (Rep 4 dg)))).

(** [[\W_]+] *)
Definition re_symbols : regex := Plus (Cls nonword_or_underscore).

Definition is_valid_heading (text : str) : bool :=
  let text := normalize_text text in
  if negb (nonempty text) || (len text <? MIN_HEADING_LEN)%nat then false
  else if forallb (fun c => char_in c filler_chars) text then false
  else if match_anchored re_page_date_version (strip text) then false
  else if (MAX_HEADING_CHARS <? len text)%nat then false
  else if match_anchored re_clock text then false
  else if match_anchored re_slash_date text then false
  else true.
End Validate.

(* ================================================================== *)
(** ** Numbers, rectangles, spans *)

(** [a < b] on coordinates. *)
Definition Qltb (a b : Q) : bool := negb (Qle_bool b a).

(** A bounding box [(x0, y0, x1, y1)]; [y0] is the top ([bbox[1]]), [x0] the
    left ([bbox[0]]) and [y1] the bottom ([bbox[3]]). *)
Record rect := Rect { x0 : Q; y0 : Q; x1 : Q; y1 : Q }.

Definition BUFFER_SIZE : Q := 10.
Definition VERTICAL_TOLERANCE : Q := 5.

(** Font sizes are doubles, counted in units of 2^-1074: [pt n] is the
    whole number [n] of the source. *)
Definition pt (n : Z) : Z := (n * 2 ^ 1074)%Z.

(** The integer nearest to [n / d], for [d > 0]; a tie goes to the even one. *)
Definition div_half_even (n d : Z) : Z :=
  let q := (n / d)%Z in
  let r := (n mod d)%Z in
  if (2 * r <? d)%Z then q
  else if (d <? 2 * r)%Z then (q + 1)%Z
  else if Z.even q then q else (q + 1)%Z.

(** The double nearest to [n / d] units, for [d > 0], a tie going to the
    even mantissa.  Up to 2^53 units every whole number is a double; from
    there on the doubles between 2^k and 2^(k+1) are the multiples of
    2^(k-52). *)
Definition nearest_double (n d : Z) : Z :=
  let a := (Z.abs n / d)%Z in
  if (a <? 2 ^ 53)%Z then div_half_even n d
  else
    let g := (2 ^ (Z.log2 a - 52))%Z in
    (g * div_half_even n (d * g))%Z.

(** [x - y] on doubles. *)
Definition float_sub (x y : Z) : Z := nearest_double (x - y) 1.

Arguments pt : simpl never.
Arguments float_sub : simpl never.

(** The number of tenths nearest to [x], a tie going to the even one. *)
Definition tenths (x : Q) : Z :=
  let t := (x * 10)%Q in
  let f := Qfloor t in
  let r := (t - inject_Z f)%Q in
  if Qltb r (1 # 2) then f
  else if Qltb (1 # 2) r then (f + 1)%Z
  else if Z.even f then f else (f + 1)%Z.

(** [round(x, 1)]: the double nearest to the nearest tenth of [x]. *)
Definition round1 (x : Q) : Z := nearest_double (tenths x * 2 ^ 1074) 10.

(** The dict that [extract_spans] builds for one text span. *)
Record span := Span {
  text : str;
  font_size : Z;
  is_bold : bool;
  bbox : rect;
  page : nat
}.

(** What PyMuPDF hands over: [page.get_text("dict")] and
    [page.find_tables()]. *)
Record raw_span := RawSpan {
  raw_text : str;       (* span["text"] *)
  raw_size : Q;         (* span["size"] *)
  raw_flags : Z;        (* span["flags"] *)
  raw_bbox : rect       (* span["bbox"] *)
}.

Record raw_line := RawLine { spans : list raw_span }.

Record raw_block := RawBlock {
  lines : option (list raw_line);   (* None: the block has no "lines" *)
  block_type : option Z             (* block.get("type") *)
}.

(** [table.bbox]; [None] stands for a bbox that is not truthy. *)
Record table := Table { table_bbox : option rect }.

Record raw_page := RawPage {
  blocks : list raw_block;
  tables : list table
}.

Definition document := list raw_page.

(** [fitz.Rect.intersects] *)
Class Fitz := { intersects : rect -> rect -> bool }.

(** Two rectangles share some area: the instance used to run the model. *)
Definition overlap (a b : rect) : bool :=
  Qltb (Qmax (x0 a) (x0 b)) (Qmin (x1 a) (x1 b)) &&
  Qltb (Qmax (y0 a) (y0 b)) (Qmin (y1 a) (y1 b)).

Definition overlap_fitz : Fitz := {| intersects := overlap |}.

(* ================================================================== *)
(** ** Dicts and sorting *)

Section Dict.
Variable V : Type.

Definition dict := list (nat * V).

Fixpoint dict_get (d : dict) (k : nat) : option V :=
  match d with
  | [] => None
  | (k', v) :: d' => if Nat.eqb k' k then Some v else dict_get d' k
  end.

(** [d[k] = v]: a known key keeps its place, a new one goes last. *)
Fixpoint dict_set (d : dict) (k : nat) (v : V) : dict :=
  match d with
  | [] => [(k, v)]
  | (k', v') :: d' =>
      if Nat.eqb k' k then (k', v) :: d' else (k', v') :: dict_set d' k v
  end.

(** [d.values()] *)
Definition values (d : dict) : list V := map snd d.
End Dict.

(** [d[k].append(x)] on a [defaultdict(list)] *)
Definition defaultdict_append (A : Type) (d : dict (list A)) (k : nat) (x : A)
  : dict (list A) :=
  match dict_get d k with
  | Some l => dict_set d k (l ++ [x])
  | None => dict_set d k [x]
  end.

Section Sort.
Variable A : Type.
(** [lt a b]: the key of [a] is less than the key of [b]. *)
Variable lt : A -> A -> bool.

Fixpoint insert_by (x : A) (l : list A) : list A :=
  match l with
  | [] => [x]
  | y :: l' => if lt y x then y :: insert_by x l' else x :: l
  end.

(** [list.sort(key=...)]: the stable sort. *)
Definition sort_by (l : list A) : list A := fold_right insert_by [] l.
End Sort.

(** [(a1, b1) < (a2, b2)] on tuples. *)
Definition pair_lt (A B : Type) (eqA ltA : A -> A -> bool) (ltB : B -> B -> bool)
  (p q : A * B) : bool :=
  if eqA (fst p) (fst q) then ltB (snd p) (snd q) else ltA (fst p) (fst q).

(* ================================================================== *)
(** ** Extract text spans excluding tables *)

Section ExtractSpans.
Context {U : Unicode} {F : Fitz}.

(** The buffered boxes of the tables of a page. *)
Definition buffered (tb : rect) : rect :=
  Rect (x0 tb - BUFFER_SIZE) (y0 tb - BUFFER_SIZE)
       (x1 tb + BUFFER_SIZE) (y1 tb + BUFFER_SIZE).

Definition table_bboxes (pg : raw_page) : list rect :=
  flat_map (fun t => match table_bbox t with
                     | Some tb => [buffered tb]
                     | None => []
                     end) (tables pg).

(** The body of the innermost loop. *)
Definition add_span (tbs : list rect) (page_num : nat)
  (spans_by_page : dict (list span)) (s : raw_span) : dict (list span) :=
  let text := normalize_text (raw_text s) in
  if negb (is_valid_heading text) then spans_by_page
  else if existsb (fun tb => intersects (raw_bbox s) tb) tbs then spans_by_page
  else defaultdict_append spans_by_page page_num
         {| text := text;
            font_size := round1 (raw_size s);
            is_bold := negb (Z.eqb (Z.land (raw_flags s) 2) 0);
            bbox := raw_bbox s;
            page := page_num |}.

Definition add_line (tbs : list rect) (page_num : nat)
  (d : dict (list span)) (ln : raw_line) : dict (list span) :=
  fold_left (add_span tbs page_num) (spans ln) d.

Definition add_block (tbs : list rect) (page_num : nat)
  (d : dict (list span)) (b : raw_block) : dict (list span) :=
  match lines b with
  | None => d
  | Some ls =>
      match block_type b with
      | Some 1%Z => d
      | _ => fold_left (add_line tbs page_num) ls d
      end
  end.

Definition add_page (d : dict (list span)) (p : nat * raw_page)
  : dict (list span) :=
  fold_left (add_block (table_bboxes (snd p)) (fst p)) (blocks (snd p)) d.

Definition extract_spans (doc : document) : dict (list span) :=
  fold_left add_page (combine (seq 0 (List.length doc)) doc) [].
End ExtractSpans.

(* ================================================================== *)
(** ** Extract title (largest font at top) *)

(** The key [(-font_size, top)] of the first sort. *)
Definition size_desc_then_top (a b : span) : bool :=
  pair_lt Z.eqb Z.ltb Qltb
    ((- font_size a)%Z, y0 (bbox a)) ((- font_size b)%Z, y0 (bbox b)).

(** The key [(top, left)] of the second sort. *)
Definition top_then_left (a b : span) : bool :=
  pair_lt Qeq_bool Qltb Qltb
    (y0 (bbox a), x0 (bbox a)) (y0 (bbox b), x0 (bbox b)).

Section ExtractTitle.
Context {U : Unicode}.

(** The variables of the merging loop. *)
Record merging := Merging {
  m_lines : list str;
  current_line : str;
  prev_bottom : option Q
}.

(** One turn of [for span in title_spans]. *)
Definition merge_step (m : merging) (s : span) : merging :=
  let top := y0 (bbox s) in
  let m' :=
    match prev_bottom m with
    | Some pb =>
        if Qltb VERTICAL_TOLERANCE (Qabs (top - pb))
        then Merging (m_lines m ++ [strip (current_line m)]) [] (prev_bottom m)
        else m
    | None => m
    end in
  Merging (m_lines m') (current_line m' ++ lit " " ++ text s)
          (Some (y1 (bbox s))).

Definition merge_lines (title_spans : list span) : list str :=
  let m := fold_left merge_step title_spans (Merging [] [] None) in
  if nonempty (strip (current_line m))
  then m_lines m ++ [strip (current_line m)]
  else m_lines m.

(** The title is thrown away when this holds. *)
Definition rejected_title (title_text : str) : bool :=
  negb (nonempty title_text)
  || (len title_text <? MIN_HEADING_LEN)%nat
  || Re.match_anchored re_symbols title_text.

Definition title_candidates (sorted_page0 : list span) : list span :=
  match sorted_page0 with
  | [] => []
  | first :: _ =>
      let max_size := font_size first in
      sort_by top_then_left
        (filter (fun s => Z.eqb (font_size s) max_size) sorted_page0)
  end.

(** [extract_title(spans_page0)].  The list that is passed in is sorted in
    place, so the function gives back, next to its result
    [(title_text, title_spans)], the list as the caller finds it after the
    call. *)
Definition extract_title (spans_page0 : list span)
  : (str * list span) * list span :=
  match spans_page0 with
  | [] => (([], []), spans_page0)
  | _ :: _ =>
      let spans_page0 := sort_by size_desc_then_top spans_page0 in
      let title_spans := title_candidates spans_page0 in
      let title_text := strip (join (lit " ") (merge_lines title_spans)) in
      if rejected_title title_text then (([], []), spans_page0)
      else ((title_text, title_spans), spans_page0)
  end.
End ExtractTitle.

(** The merging of candidates into lines, in the words of the
    specification: consecutive candidates stay in one line as long as the gap
    between the top of a candidate and the bottom of the one before is within
    the tolerance; a larger gap starts a new line. *)
Fixpoint group_lines (prev_bottom : Q) (line rest : list span)
  : list (list span) :=
  match rest with
  | [] => [line]
  | s :: rest' =>
      if Qltb VERTICAL_TOLERANCE (Qabs (y0 (bbox s) - prev_bottom))
      then line :: group_lines (y1 (bbox s)) [s] rest'
      else group_lines (y1 (bbox s)) (line ++ [s]) rest'
  end.

Definition lines_of (candidates : list span) : list (list span) :=
  match candidates with
  | [] => []
  | s :: rest => group_lines (y1 (bbox s)) [s] rest
  end.

Section SpecTitle.
Context {U : Unicode}.

(** A line is the space-joined text of its spans, stripped. *)
Definition joined_line (line : list span) : str :=
  strip (lit " " ++ join (lit " ") (map text line)).

(** The lines of the title; a last line that is empty is left out. *)
Definition spec_merge_lines (candidates : list span) : list str :=
  let ls := map joined_line (lines_of candidates) in
  if nonempty (last ls []) then ls else removelast ls.
End SpecTitle.

(* ================================================================== *)
(** ** Assign heading levels (H1, H2, H3) *)

Inductive level := H1 | H2 | H3.

Definition level_eqb (a b : level) : bool :=
  match a, b with
  | H1, H1 | H2, H2 | H3, H3 => true
  | _, _ => false
  end.

(** [{"H1": 1, "H2": 2, "H3": 3}[level]] *)
Definition level_rank (l : level) : Z :=
  match l with H1 => 1 | H2 => 2 | H3 => 3 end.

(** The name of a level in the output. *)
Definition level_name (l : level) : str :=
  match l with H1 => lit "H1" | H2 => lit "H2" | H3 => lit "H3" end.

Module Heading.
Record t := Make { level : level; text : str; page : nat }.

(** Equality of the key [(level, text, page)]. *)
Definition eqb (a b : t) : bool :=
  level_eqb (level a) (level b) && str_eqb (text a) (text b)
  && Nat.eqb (page a) (page b).

(** The sort key [(page, rank)]. *)
Definition key_lt (a b : t) : bool :=
  pair_lt Nat.eqb Nat.ltb Z.ltb
    (page a, level_rank (level a)) (page b, level_rank (level b)).
End Heading.

Definition heading : Type := Heading.t.

(** [Counter(sizes)]: the keys in the order of their first occurrence, each
    with its count. *)
Fixpoint counter_add (c : list (Z * nat)) (x : Z) : list (Z * nat) :=
  match c with
  | [] => [(x, 1%nat)]
  | (k, n) :: c' => if Z.eqb k x then (k, S n) :: c' else (k, n) :: counter_add c' x
  end.

Definition Counter (l : list Z) : list (Z * nat) := fold_left counter_add l [].

Definition keys (c : list (Z * nat)) : list Z := map fst c.

(** [sorted(l, reverse=True)] *)
Definition sorted_reverse (l : list Z) : list Z :=
  sort_by (fun a b => Z.ltb b a) l.

(** The three thresholds [(h1_size, h2_size, h3_size)]. *)
Definition thresholds (sorted_sizes : list Z) : Z * Z * Z :=
  let h1_size :=
    if (0 <? List.length sorted_sizes)%nat then nth 0 sorted_sizes 0%Z else 0%Z in
  let h2_size :=
    if (1 <? List.length sorted_sizes)%nat then nth 1 sorted_sizes 0%Z
    else float_sub h1_size (pt 1) in
  let h3_size :=
    if (2 <? List.length sorted_sizes)%nat then nth 2 sorted_sizes 0%Z
    else float_sub h2_size (pt 1) in
  (h1_size, h2_size, h3_size).

(** The [if]/[elif] chain that picks the level of a span. *)
Definition level_of (th : Z * Z * Z) (s : span) : option level :=
  let '(h1_size, h2_size, h3_size) := th in
  if Z.eqb (font_size s) h1_size && is_bold s then Some H1
  else if Z.eqb (font_size s) h2_size then Some H2
  else if Z.eqb (font_size s) h3_size then Some H3
  else None.

(** The loop that removes duplicates, with its two variables. *)
Definition dedup_step (st : list heading * list heading) (h : heading)
  : list heading * list heading :=
  let '(seen, unique_headings) := st in
  if existsb (Heading.eqb h) seen then st
  else (h :: seen, unique_headings ++ [h]).

Definition remove_duplicates (headings : list heading) : list heading :=
  snd (fold_left dedup_step headings ([], [])).

(** The same, in the words of the specification: the first occurrence wins. *)
Fixpoint first_occurrences (hs : list heading) : list heading :=
  match hs with
  | [] => []
  | h :: hs' =>
      h :: filter (fun h' => negb (Heading.eqb h' h)) (first_occurrences hs')
  end.

Section AssignHeadingLevels.
Context {U : Unicode}.

(** [filtered_spans] *)
Definition filtered_spans (spans_by_page : dict (list span))
  (title_lines : list span) : list span :=
  let all_spans := List.concat (values spans_by_page) in
  let title_texts := map text title_lines in
  filter (fun s => negb (existsb (str_eqb (text s)) title_texts)) all_spans.

(** [sorted_sizes] *)
Definition sorted_sizes (filtered : list span) : list Z :=
  sorted_reverse (keys (Counter (map font_size filtered))).

(** The body of [for s in filtered_spans]: what it appends to [headings]. *)
Definition label (th : Z * Z * Z) (s : span) : list heading :=
  match level_of th s with
  | Some l =>
      if is_valid_heading (text s)
      then [Heading.Make l (text s) (page s)]
      else []
  | None => []
  end.

(** The list [headings], before duplicates go. *)
Definition raw_headings (filtered : list span) : list heading :=
  flat_map (label (thresholds (sorted_sizes filtered))) filtered.

Definition assign_heading_levels (spans_by_page : dict (list span))
  (title_lines : list span) : list heading :=
  let filtered := filtered_spans spans_by_page title_lines in
  match filtered with
  | [] => []
  | _ :: _ =>
      let headings := raw_headings filtered in
      let unique_headings := remove_duplicates headings in
      sort_by Heading.key_lt unique_headings
  end.

(** [assign_heading_levels] run on the caller's objects: no statement of
    its body writes to [spans_by_page], to one of its lists or to
    [title_lines], so they come back as they went in. *)
Definition assign_heading_levels_run
  (st : dict (list span) * list span)
  : list heading * (dict (list span) * list span) :=
  (assign_heading_levels (fst st) (snd st), st).
End AssignHeadingLevels.

(* ================================================================== *)
(** ** Main extraction *)

Record outline := Outline { title : str; headings : list heading }.

Section Main.
Context {U : Unicode} {F : Fitz}.

(** [spans_by_page.get(0, [])] *)
Definition page0_of (spans_by_page : dict (list span)) : list span :=
  match dict_get spans_by_page 0 with
  | Some page0_spans => page0_spans
  | None => []
  end.

(** The dict after [extract_title] has run: [page0_spans] is the very list
    stored under key 0, so the dict sees it as the call left it; without a
    key 0 the call got a fresh empty list and the dict is untouched. *)
Definition after_title (spans_by_page : dict (list span))
  (page0_after : list span) : dict (list span) :=
  match dict_get spans_by_page 0 with
  | Some _ => dict_set spans_by_page 0 page0_after
  | None => spans_by_page
  end.

(** [extract_outline_from_pdf] from [spans_by_page] on. *)
Definition build_outline (spans_by_page : dict (list span)) : outline :=
  let page0_spans := page0_of spans_by_page in
  let '((title, title_lines), page0_after) := extract_title page0_spans in
  let spans_by_page := after_title spans_by_page page0_after in
  let outline := assign_heading_levels spans_by_page title_lines in
  Outline title outline.

Definition extract_outline_from_pdf (doc : document) : outline :=
  build_outline (extract_spans doc).
End Main.

(* ================================================================== *)
(** ** Inputs used below *)

(** The text of a span is ASCII. *)
Definition ascii_span (s : span) : bool := all_ascii (text s).

Definition box (top bottom : Q) : rect := Rect 0 top 100 bottom.

(** A span filed under page [k] carries that page number and lies outside
    every buffered table box of that page of the document. *)
Definition outside_tables {F : Fitz} (doc : document) (k : nat) (s : span)
  : Prop :=
  page s = k
  /\ exists pg, nth_error doc k = Some pg
       /\ forall tb, In tb (table_bboxes pg) -> intersects (bbox s) tb = false.

Definition all_outside_tables {F : Fitz} (doc : document)
  (d : dict (list span)) : Prop :=
  forall k l s, In (k, l) d -> In s l -> outside_tables doc k s.

(** A page with a table, a heading above it and a large text in one of its
    cells. *)
Definition table_rect : rect := Rect 50 200 400 300.
Definition cell_rect : rect := Rect 60 210 120 230.

Definition page_with_table : document :=
  [ RawPage
      [ RawBlock
          (Some [ RawLine [ RawSpan (lit "Overview") 18 16 (Rect 50 100 200 120) ];
                  RawLine [ RawSpan (lit "Total") 24 16 cell_rect ] ])
          (Some 0%Z) ]
      [ Table (Some table_rect) ] ].

(** Two spans of one size, none of them bold. *)
Definition plain_page : dict (list span) :=
  [ (0%nat,
     [ Span (lit "Hello there") (pt 12) false (box 10 22) 0;
       Span (lit "More text") (pt 12) false (box 30 42) 0 ]) ].

(** Two spans of size 1e16, none of them bold: the double 1e16 - 1 is 1e16. *)
Definition huge_span (t : string) (top bottom : Q) : span :=
  Span (lit t) (pt (10 ^ 16)) false (box top bottom) 0.

Definition huge_page : dict (list span) :=
  [ (0%nat, [ huge_span "Alpha" 10 22; huge_span "Beta" 30 42 ]) ].

(** The three spans of the one-page document, wherever they sit. *)
Definition one_page (b1 b2 b3 : rect) : dict (list span) :=
  [ (0%nat,
     [ Span (lit "Title Text") (pt 30) true b1 0;
       Span (lit "Section A") (pt 20) true b2 0;
       Span (lit "sub note") (pt 12) false b3 0 ]) ].

(** The two spans of the title example, wherever else they sit. *)
Definition annual_report (left1 right1 bottom1 left2 right2 bottom2 : Q)
  (bold1 bold2 : bool) : list span :=
  [ Span (lit "Annual Report") (pt 28) bold1 (Rect left1 10 right1 bottom1) 0;
    Span (lit "2024 Edition") (pt 28) bold2 (Rect left2 30 right2 bottom2) 0 ].

(** One span of symbols only. *)
Definition stars : list span :=
  [ Span (lit "**") (pt 28) true (box 10 40) 0 ].

(** A small span in front of a large one. *)
Definition small_then_large : list span :=
  [ Span (lit "body text") (pt 12) false (box 40 52) 0;
    Span (lit "Big Title") (pt 30) true (box 10 40) 0 ].

(* ================================================================== *)
(** ** Words of the patterns, spans of a page, names of the output files *)

(** The words of a regular expression. *)
Inductive re_lang : Re.regex -> str -> Prop :=
| lang_Eps : re_lang Re.Eps []
| lang_Cls : forall (p : char -> bool) c, p c = true -> re_lang (Re.Cls p) [c]
| lang_Seq : forall a b s1 s2,
    re_lang a s1 -> re_lang b s2 -> re_lang (Re.Seq a b) (s1 ++ s2)
| lang_Alt_l : forall a b s, re_lang a s -> re_lang (Re.Alt a b) s
| lang_Alt_r : forall a b s, re_lang b s -> re_lang (Re.Alt a b) s
| lang_Star_nil : forall a, re_lang (Re.Star a) []
| lang_Star_cons : forall a s1 s2,
    re_lang a s1 -> re_lang (Re.Star a) s2 -> re_lang (Re.Star a) (s1 ++ s2).

(** An ASCII character that is not white space. *)
Definition solid (c : char) : bool := is_ascii c && negb (ascii_isspace c).

(** The lines of a block that the loops of [extract_spans] walk through:
    none for a block without "lines" or of type 1. *)
Definition block_lines (b : raw_block) : list raw_line :=
  match lines b with
  | None => []
  | Some ls =>
      match block_type b with
      | Some 1%Z => []
      | _ => ls
      end
  end.

(** The text fragments of a page, in the order of the loops. *)
Definition fragments (pg : raw_page) : list raw_span :=
  flat_map (fun b => flat_map spans (block_lines b)) (blocks pg).

Section Collected.
Context {U : Unicode} {F : Fitz}.

(** What one fragment adds to the list of its page. *)
Definition kept (tbs : list rect) (page_num : nat) (s : raw_span) : list span :=
  let text := normalize_text (raw_text s) in
  if negb (is_valid_heading text) then []
  else if existsb (fun tb => intersects (raw_bbox s) tb) tbs then []
  else [ {| text := text;
            font_size := round1 (raw_size s);
            is_bold := negb (Z.eqb (Z.land (raw_flags s) 2) 0);
            bbox := raw_bbox s;
            page := page_num |} ].

Definition page_spans (page_num : nat) (pg : raw_page) : list span :=
  flat_map (kept (table_bboxes pg) page_num) (fragments pg).

(** The dict of [extract_spans], said at once: one entry for every page that
    has a span, in the order of the pages. *)
Definition collected (doc : document) : dict (list span) :=
  flat_map (fun p => match page_spans (fst p) (snd p) with
                     | [] => []
                     | l => [(fst p, l)]
                     end)
           (combine (seq 0 (List.length doc)) doc).
End Collected.

(** Several appends to [d[k]] in a row; with nothing to append the dict is
    left alone and no key is made. *)
Definition dict_extend (A : Type) (d : dict (list A)) (k : nat) (l : list A)
  : dict (list A) :=
  match l with
  | [] => d
  | _ :: _ =>
      match dict_get d k with
      | Some l0 => dict_set d k (l0 ++ l)
      | None => dict_set d k l
      end
  end.

(** A dict whose keys do not repeat. *)
Definition unique_keys (V : Type) (d : dict V) : Prop := NoDup (map fst d).

(** [s.startswith(prefix)] and [s.endswith(suffix)] *)
Fixpoint startswith (prefix s : str) : bool :=
  match prefix, s with
  | [], _ => true
  | p :: prefix', c :: s' => char_eqb p c && startswith prefix' s'
  | _ :: _, [] => false
  end.

Definition endswith (suffix s : str) : bool := startswith (rev suffix) (rev s).

(** [s.replace(old, new)] for an [old] that is not empty: the occurrences of
    [old] are taken from the left and do not overlap; [skip] counts the
    characters of an occurrence that are still to be passed over. *)
Fixpoint replace_from (old new : str) (skip : nat) (s : str) : str :=
  match s with
  | [] => []
  | c :: s' =>
      match skip with
      | S k => replace_from old new k s'
      | O =>
          if startswith old s
          then new ++ replace_from old new (len old - 1) s'
          else c :: replace_from old new 0 s'
      end
  end.

(** With an empty [old], [new] goes before every character and at the end. *)
Definition replace (old new s : str) : str :=
  match old with
  | [] => flat_map (fun c => new ++ [c]) s ++ new
  | _ :: _ => replace_from old new 0 s
  end.

(** [str.lower], a table of the character database as well. *)
Class CaseMap := { lower : str -> str }.

Definition ascii_case : CaseMap := {| lower := map ascii_lower |}.

(** On ASCII text [lower] turns A-Z into a-z. *)
Class CaseMapFacts (C : CaseMap) : Prop := {
  lower_ascii : forall s, all_ascii s = true -> lower s = map ascii_lower s
}.

Section MainNames.
Context {C : CaseMap}.

(** The filter of [main]: [f.lower().endswith(".pdf")] *)
Definition is_pdf (f : str) : bool := endswith (lit ".pdf") (lower f).

(** [pdf_files] *)
Definition pdf_files (listing : list str) : list str := filter is_pdf listing.

(** [pdf_file.replace(".pdf", ".json")], the name of the file written. *)
Definition output_name (pdf_file : str) : str :=
  replace (lit ".pdf") (lit ".json") pdf_file.

(** The names [main] writes, in the order it writes them. *)
Definition written_names (listing : list str) : list str :=
  map output_name (pdf_files listing).
End MainNames.

(** File names for the examples. *)
Definition upper_name (stem : str) : str := stem ++ lit ".PDF".

(* ================================================================== *)
(** * Properties *)

(** ** The stable sort *)

Section SortFacts.
Variable A : Type.
Variable lt : A -> A -> bool.

Lemma insert_by_perm (x : A) (l : list A) :
  Permutation (insert_by lt x l) (x :: l).
Proof.
  induction l as [|y l IH]; simpl; [reflexivity|].
  destruct (lt y x); [|reflexivity].
  rewrite IH. apply perm_swap.
Qed.

Lemma sort_by_perm (l : list A) : Permutation (sort_by lt l) l.
Proof.
  induction l as [|x l IH]; simpl; [constructor|].
  rewrite insert_by_perm. now constructor.
Qed.

Lemma sort_by_In (l : list A) (x : A) : In x (sort_by lt l) <-> In x l.
Proof.
  split; apply Permutation_in;
    [apply sort_by_perm | apply Permutation_sym, sort_by_perm].
Qed.

Lemma insert_by_filter_out (p : A -> bool) (x : A) (l : list A) :
  p x = false -> filter p (insert_by lt x l) = filter p l.
Proof.
  intros Hx. induction l as [|y l IH]; simpl.
  - now rewrite Hx.
  - destruct (lt y x); simpl.
    + now rewrite IH.
    + now rewrite Hx.
Qed.

Lemma insert_by_filter_in (p : A -> bool) (x : A) (l : list A) :
  p x = true -> (forall y, lt y x = true -> p y = false) ->
  filter p (insert_by lt x l) = x :: filter p l.
Proof.
  intros Hx Hlt. induction l as [|y l IH]; simpl.
  - now rewrite Hx.
  - destruct (lt y x) eqn:E; simpl.
    + rewrite (Hlt y E). exact IH.
    + now rewrite Hx.
Qed.

(** Stability: elements of one key class keep their order. *)
Lemma sort_by_stable (p : A -> bool) (l : list A) :
  (forall x y, p x = true -> lt y x = true -> p y = false) ->
  filter p (sort_by lt l) = filter p l.
Proof.
  intros Hp. induction l as [|x l IH]; simpl; [reflexivity|].
  destruct (p x) eqn:E.
  - rewrite insert_by_filter_in; auto.
    + now rewrite IH.
    + intros y. now apply Hp.
  - rewrite insert_by_filter_out; auto.
Qed.

Hypothesis lt_asym : forall a b, lt a b = true -> lt b a = false.
Hypothesis lt_cotrans :
  forall a b c, lt a b = true -> lt a c = true \/ lt c b = true.

Lemma insert_by_sorted (x : A) (l : list A) :
  StronglySorted (fun a b => lt b a = false) l ->
  StronglySorted (fun a b => lt b a = false) (insert_by lt x l).
Proof.
  induction 1 as [|y l Hs IH Hy]; simpl.
  - repeat constructor.
  - destruct (lt y x) eqn:E.
    + constructor; [exact IH|].
      rewrite Forall_forall in *. intros z Hz.
      apply (Permutation_in _ (insert_by_perm x l)) in Hz.
      destruct Hz as [<-|Hz]; [now apply lt_asym | now apply Hy].
    + constructor; [now constructor|].
      constructor; [exact E|].
      rewrite Forall_forall in *. intros z Hz.
      destruct (lt z x) eqn:Ez; [|reflexivity].
      destruct (lt_cotrans y Ez) as [H1|H1].
      * rewrite (Hy z Hz) in H1. discriminate.
      * congruence.
Qed.

Lemma sort_by_sorted (l : list A) :
  StronglySorted (fun a b => lt b a = false) (sort_by lt l).
Proof.
  induction l as [|x l IH]; simpl; [constructor|].
  now apply insert_by_sorted.
Qed.
End SortFacts.

(** ** Equality tests and the orders of the sort keys *)

Lemma char_eqb_eq (a b : char) : char_eqb a b = true <-> a = b.
Proof. apply N.eqb_eq. Qed.

Lemma str_eqb_eq (a b : str) : str_eqb a b = true <-> a = b.
Proof.
  revert b. induction a as [|x a IH]; intros [|y b]; simpl;
    try (split; [discriminate|discriminate]); [tauto|].
  rewrite andb_true_iff, char_eqb_eq, IH.
  split; [intros [-> ->]; reflexivity | intros [= -> ->]; auto].
Qed.

Lemma str_eqb_refl (a : str) : str_eqb a a = true.
Proof. now apply str_eqb_eq. Qed.

Lemma level_eqb_eq (a b : level) : level_eqb a b = true <-> a = b.
Proof. destruct a, b; simpl; split; intros; congruence. Qed.

Lemma heading_eqb_eq (a b : heading) : Heading.eqb a b = true <-> a = b.
Proof.
  destruct a as [la ta pa], b as [lb tb pb]. unfold Heading.eqb. simpl.
  rewrite !andb_true_iff, level_eqb_eq, str_eqb_eq, Nat.eqb_eq.
  split; [intros [[-> ->] ->]; reflexivity | intros [= -> -> ->]; auto].
Qed.

Lemma heading_eqb_neq (a b : heading) : Heading.eqb a b = false <-> a <> b.
Proof.
  rewrite <- heading_eqb_eq. destruct (Heading.eqb a b); split; congruence.
Qed.

Lemma existsb_str_eqb (t : str) (l : list str) :
  existsb (str_eqb t) l = true <-> In t l.
Proof.
  rewrite existsb_exists. split.
  - intros (x & Hx & E). apply str_eqb_eq in E. now subst.
  - intros H. exists t. split; [exact H | apply str_eqb_refl].
Qed.

Lemma existsb_heading_eqb (h : heading) (l : list heading) :
  existsb (Heading.eqb h) l = true <-> In h l.
Proof.
  rewrite existsb_exists. split.
  - intros (x & Hx & E). apply heading_eqb_eq in E. now subst.
  - intros H. exists h. split; [exact H | now apply heading_eqb_eq].
Qed.

Lemma Qltb_lt (a b : Q) : Qltb a b = true <-> (a < b)%Q.
Proof.
  unfold Qltb. rewrite negb_true_iff, <- not_true_iff_false, Qle_bool_iff.
  split; [apply Qnot_le_lt | apply Qlt_not_le].
Qed.

Lemma Qltb_ge (a b : Q) : Qltb a b = false <-> (b <= a)%Q.
Proof.
  unfold Qltb. rewrite negb_false_iff. apply Qle_bool_iff.
Qed.

Lemma Qeq_bool_false (a b : Q) : Qeq_bool a b = false <-> ~ (a == b)%Q.
Proof.
  rewrite <- Qeq_bool_iff. destruct (Qeq_bool a b); split; congruence.
Qed.

Ltac bool_to_prop :=
  repeat match goal with
  | H : Qltb _ _ = true |- _ => apply Qltb_lt in H
  | H : Qltb _ _ = false |- _ => apply Qltb_ge in H
  | H : Qeq_bool _ _ = true |- _ => apply Qeq_bool_iff in H
  | H : Qeq_bool _ _ = false |- _ => apply Qeq_bool_false in H
  | H : Z.eqb _ _ = true |- _ => apply Z.eqb_eq in H
  | H : Z.eqb _ _ = false |- _ => apply Z.eqb_neq in H
  | H : Z.ltb _ _ = true |- _ => apply Z.ltb_lt in H
  | H : Z.ltb _ _ = false |- _ => apply Z.ltb_ge in H
  | H : Nat.eqb _ _ = true |- _ => apply Nat.eqb_eq in H
  | H : Nat.eqb _ _ = false |- _ => apply Nat.eqb_neq in H
  | H : Nat.ltb _ _ = true |- _ => apply Nat.ltb_lt in H
  | H : Nat.ltb _ _ = false |- _ => apply Nat.ltb_ge in H
  | |- Qltb _ _ = true => apply Qltb_lt
  | |- Qltb _ _ = false => apply Qltb_ge
  | |- Z.ltb _ _ = true => apply Z.ltb_lt
  | |- Z.ltb _ _ = false => apply Z.ltb_ge
  | |- Nat.ltb _ _ = true => apply Nat.ltb_lt
  | |- Nat.ltb _ _ = false => apply Nat.ltb_ge
  end.

Ltac split_keys :=
  unfold pair_lt; simpl;
  repeat match goal with
  | |- context [if ?c then _ else _] => destruct c eqn:?
  | H : context [if ?c then _ else _] |- _ => destruct c eqn:?
  end.

Lemma desc_asym (a b : Z) : Z.ltb b a = true -> Z.ltb a b = false.
Proof. intros. bool_to_prop. lia. Qed.

Lemma desc_cotrans (a b c : Z) :
  Z.ltb b a = true -> Z.ltb c a = true \/ Z.ltb b c = true.
Proof.
  intros H. bool_to_prop. destruct (Z.ltb c a) eqn:E; [now left|right].
  bool_to_prop. lia.
Qed.

Lemma key_lt_asym (a b : heading) :
  Heading.key_lt a b = true -> Heading.key_lt b a = false.
Proof.
  unfold Heading.key_lt. split_keys; intros; bool_to_prop; lia.
Qed.

Lemma key_lt_cotrans (a b c : heading) :
  Heading.key_lt a b = true ->
  Heading.key_lt a c = true \/ Heading.key_lt c b = true.
Proof.
  unfold Heading.key_lt. intros H.
  destruct (pair_lt Nat.eqb Nat.ltb Z.ltb
              (Heading.page a, level_rank (Heading.level a))
              (Heading.page c, level_rank (Heading.level c))) eqn:E;
    [now left|right].
  revert H E. split_keys; intros; bool_to_prop; lia.
Qed.

Lemma size_desc_then_top_asym (a b : span) :
  size_desc_then_top a b = true -> size_desc_then_top b a = false.
Proof.
  unfold size_desc_then_top. split_keys; intros; bool_to_prop;
    try lia; try lra.
Qed.

Lemma size_desc_then_top_cotrans (a b c : span) :
  size_desc_then_top a b = true ->
  size_desc_then_top a c = true \/ size_desc_then_top c b = true.
Proof.
  unfold size_desc_then_top. intros H.
  destruct (pair_lt Z.eqb Z.ltb Qltb
              ((- font_size a)%Z, y0 (bbox a))
              ((- font_size c)%Z, y0 (bbox c))) eqn:E; [now left|right].
  revert H E. split_keys; intros; bool_to_prop; try lia; try lra.
Qed.

Lemma top_then_left_asym (a b : span) :
  top_then_left a b = true -> top_then_left b a = false.
Proof.
  unfold top_then_left. split_keys; intros; bool_to_prop; try lra.
Qed.

Lemma top_then_left_cotrans (a b c : span) :
  top_then_left a b = true ->
  top_then_left a c = true \/ top_then_left c b = true.
Proof.
  unfold top_then_left. intros H.
  destruct (pair_lt Qeq_bool Qltb Qltb
              (y0 (bbox a), x0 (bbox a)) (y0 (bbox c), x0 (bbox c))) eqn:E;
    [now left|right].
  revert H E. split_keys; intros; bool_to_prop; try lra.
Qed.

(** ** Removing duplicates *)

Lemma filter_filter (A : Type) (p q : A -> bool) (l : list A) :
  filter p (filter q l) = filter (fun x => q x && p x) l.
Proof.
  induction l as [|x l IH]; simpl; [reflexivity|].
  destruct (q x); simpl; [destruct (p x)|]; now rewrite IH.
Qed.

Lemma dedup_loop (hs seen acc : list heading) :
  snd (fold_left dedup_step hs (seen, acc)) =
  acc ++ filter (fun h => negb (existsb (Heading.eqb h) seen))
           (first_occurrences hs).
Proof.
  revert seen acc. induction hs as [|h hs IH]; intros seen acc; simpl.
  - now rewrite app_nil_r.
  - destruct (existsb (Heading.eqb h) seen) eqn:E; simpl.
    + rewrite IH, filter_filter. f_equal. apply filter_ext_in.
      intros x _. destruct (Heading.eqb x h) eqn:Ex; simpl; [|reflexivity].
      apply heading_eqb_eq in Ex. subst x. now rewrite E.
    + rewrite IH, <- app_assoc, filter_filter. simpl. do 2 f_equal.
      apply filter_ext. intros x. now destruct (Heading.eqb x h).
Qed.

(** The loop of the source keeps the first occurrence of every heading. *)
Lemma remove_duplicates_first (hs : list heading) :
  remove_duplicates hs = first_occurrences hs.
Proof.
  unfold remove_duplicates. rewrite dedup_loop. simpl.
  induction (first_occurrences hs) as [|x l IH]; simpl;
    [reflexivity | now rewrite IH].
Qed.

Lemma first_occurrences_In (hs : list heading) (h : heading) :
  In h (first_occurrences hs) <-> In h hs.
Proof.
  induction hs as [|x hs IH]; simpl; [tauto|].
  rewrite filter_In, IH, negb_true_iff, heading_eqb_neq.
  destruct (heading_eqb_eq h x) as [_ E].
  destruct (Heading.eqb h x) eqn:Ex.
  - apply heading_eqb_eq in Ex. subst. tauto.
  - apply heading_eqb_neq in Ex. split; [tauto|].
    intros [<-|H]; [now left | right; split; auto].
Qed.

Lemma first_occurrences_NoDup (hs : list heading) :
  NoDup (first_occurrences hs).
Proof.
  induction hs as [|x hs IH]; simpl; constructor.
  - rewrite filter_In, negb_true_iff, heading_eqb_neq. tauto.
  - now apply NoDup_filter.
Qed.

(** The position of the first occurrence decides the order: what is kept of
    a prefix is a prefix of what is kept of the whole. *)
Lemma first_occurrences_app (l1 l2 : list heading) :
  first_occurrences (l1 ++ l2) =
  first_occurrences l1 ++
  filter (fun h => negb (existsb (Heading.eqb h) l1)) (first_occurrences l2).
Proof.
  induction l1 as [|x l1 IH]; simpl.
  - induction (first_occurrences l2) as [|y l IHl]; simpl;
      [reflexivity | now rewrite <- IHl].
  - f_equal. rewrite IH, filter_app, filter_filter. f_equal.
    apply filter_ext. intros h.
    destruct (Heading.eqb h x); simpl;
      [now rewrite andb_false_r | now rewrite andb_true_r].
Qed.

(** ** The outline: unique and in order *)

Lemma StronglySorted_weaken (A : Type) (R R' : A -> A -> Prop) (l : list A) :
  (forall a b, R a b -> R' a b) -> StronglySorted R l -> StronglySorted R' l.
Proof.
  intros HR. induction 1 as [|x l Hs IH Hx]; constructor; auto.
  eapply Forall_impl; [|exact Hx]. intros b. apply HR.
Qed.

Lemma assign_heading_levels_eq {U : Unicode}
  (spans_by_page : dict (list span)) (title_lines : list span) :
  assign_heading_levels spans_by_page title_lines =
  sort_by Heading.key_lt
    (first_occurrences (raw_headings (filtered_spans spans_by_page title_lines))).
Proof.
  unfold assign_heading_levels.
  destruct (filtered_spans spans_by_page title_lines) as [|s fs] eqn:E.
  - reflexivity.
  - now rewrite remove_duplicates_first.
Qed.

Lemma assign_heading_levels_In {U : Unicode}
  (spans_by_page : dict (list span)) (title_lines : list span) (h : heading) :
  In h (assign_heading_levels spans_by_page title_lines) <->
  In h (raw_headings (filtered_spans spans_by_page title_lines)).
Proof.
  now rewrite assign_heading_levels_eq, sort_by_In, first_occurrences_In.
Qed.

(** C5: the headings that [assign_heading_levels] returns hold no
    [(level, text, page)] triple twice; they are the first occurrences of the
    labelled headings, taken in their order before the sort, then sorted by
    page and, within a page, by the rank of the level (H1, H2, H3); the sort
    is stable, so headings of one page and level keep the order they had. *)
Theorem assign_heading_levels_unique_sorted {U : Unicode}
  (spans_by_page : dict (list span)) (title_lines : list span) :
  let raw := raw_headings (filtered_spans spans_by_page title_lines) in
  let out := assign_heading_levels spans_by_page title_lines in
  NoDup out
  /\ Permutation out (first_occurrences raw)
  /\ (forall h, In h out <-> In h raw)
  /\ StronglySorted
       (fun a b =>
          (Heading.page a < Heading.page b)%nat
          \/ (Heading.page a = Heading.page b
              /\ (level_rank (Heading.level a) <= level_rank (Heading.level b))%Z))
       out
  /\ (forall (pg : nat) (l : level),
        let same h := Nat.eqb (Heading.page h) pg && level_eqb (Heading.level h) l in
        filter same out = filter same (first_occurrences raw)).
Proof.
  intros raw out.
  assert (E : out = sort_by Heading.key_lt (first_occurrences raw))
    by apply assign_heading_levels_eq.
  assert (P : Permutation out (first_occurrences raw))
    by (rewrite E; apply sort_by_perm).
  repeat split.
  - apply (Permutation_NoDup (Permutation_sym P)), first_occurrences_NoDup.
  - exact P.
  - intros H. apply first_occurrences_In. revert H. apply Permutation_in, P.
  - intros H. apply first_occurrences_In in H. revert H.
    apply Permutation_in, Permutation_sym, P.
  - rewrite E.
    apply StronglySorted_weaken
      with (R := fun a b => Heading.key_lt b a = false);
      [|apply sort_by_sorted; [apply key_lt_asym | apply key_lt_cotrans]].
    intros a b. unfold Heading.key_lt. split_keys; intros; bool_to_prop; lia.
  - intros pg l same. rewrite E. apply sort_by_stable.
    intros x y Hx. unfold same in *.
    apply andb_true_iff in Hx. destruct Hx as [Hp Hl].
    apply Nat.eqb_eq in Hp. apply level_eqb_eq in Hl. subst pg l.
    unfold Heading.key_lt, pair_lt. simpl.
    destruct (Nat.eqb (Heading.page y) (Heading.page x)); simpl;
      [|reflexivity].
    destruct (Heading.level y), (Heading.level x); simpl;
      intros; try reflexivity; bool_to_prop; lia.
Qed.

(** ** The size thresholds *)

Lemma keys_counter_add_In (c : list (Z * nat)) (x y : Z) :
  In y (keys (counter_add c x)) <-> In y (keys c) \/ y = x.
Proof.
  induction c as [|[k n] c IH]; simpl.
  - intuition congruence.
  - destruct (Z.eqb k x) eqn:E; simpl.
    + apply Z.eqb_eq in E. intuition congruence.
    + fold (keys (counter_add c x)). fold (keys c). rewrite IH. tauto.
Qed.

Lemma keys_counter_add_NoDup (c : list (Z * nat)) (x : Z) :
  NoDup (keys c) -> NoDup (keys (counter_add c x)).
Proof.
  induction c as [|[k n] c IH]; simpl; intros H.
  - repeat constructor. intros [].
  - destruct (Z.eqb k x) eqn:E; simpl; [exact H|].
    fold (keys (counter_add c x)). fold (keys c) in H.
    inversion H as [|? ? Hk Hc]; subst. constructor; [|now apply IH].
    rewrite keys_counter_add_In. apply Z.eqb_neq in E.
    intros [?|?]; [contradiction | congruence].
Qed.

Lemma keys_Counter_acc (l : list Z) (c : list (Z * nat)) :
  NoDup (keys c) ->
  NoDup (keys (fold_left counter_add l c))
  /\ forall y, In y (keys (fold_left counter_add l c)) <-> In y (keys c) \/ In y l.
Proof.
  revert c. induction l as [|x l IH]; intros c Hc; simpl.
  - split; [exact Hc | tauto].
  - destruct (IH (counter_add c x) (keys_counter_add_NoDup c x Hc)) as [Hn Hi].
    split; [exact Hn|]. intros y. rewrite Hi, keys_counter_add_In.
    intuition congruence.
Qed.

(** The keys of a [Counter] are the distinct elements. *)
Lemma keys_Counter (l : list Z) :
  NoDup (keys (Counter l)) /\ forall y, In y (keys (Counter l)) <-> In y l.
Proof.
  destruct (@keys_Counter_acc l [] (NoDup_nil _)) as [Hn Hi].
  split; [exact Hn|]. intros y. rewrite (Hi y). simpl. tauto.
Qed.

Lemma strictly_sorted (l : list Z) :
  NoDup l -> StronglySorted (fun a b => Z.ltb a b = false) l ->
  StronglySorted (fun a b => (b < a)%Z) l.
Proof.
  intros Hn Hs. induction Hs as [|x l Hs IH Hx]; constructor.
  - apply IH. now inversion Hn.
  - inversion Hn as [|? ? Hnx _]; subst.
    rewrite Forall_forall in *. intros y Hy.
    specialize (Hx y Hy). bool_to_prop.
    assert (y <> x) by (intros ->; contradiction). lia.
Qed.

Lemma sorted_sizes_In (filtered : list span) (x : Z) :
  In x (sorted_sizes filtered) <->
  exists s, In s filtered /\ font_size s = x.
Proof.
  unfold sorted_sizes, sorted_reverse.
  rewrite sort_by_In. destruct (keys_Counter (map font_size filtered)) as [_ Hi].
  rewrite Hi, in_map_iff. firstorder.
Qed.

Lemma sorted_sizes_sorted (filtered : list span) :
  StronglySorted (fun a b => (b < a)%Z) (sorted_sizes filtered).
Proof.
  unfold sorted_sizes, sorted_reverse. apply strictly_sorted.
  - apply (Permutation_NoDup (Permutation_sym (sort_by_perm _ _))).
    apply keys_Counter.
  - apply sort_by_sorted with (lt := fun a b => Z.ltb b a).
    + intros a b. apply desc_asym.
    + intros a b c. apply desc_cotrans.
Qed.

(** *** Subtracting 1 from a double *)

Lemma div_half_even_near (n d : Z) :
  (0 < d -> 2 * Z.abs (div_half_even n d * d - n) <= d)%Z.
Proof.
  intros Hd. unfold div_half_even.
  pose proof (Z.div_mod n d ltac:(lia)) as E.
  pose proof (Z.mod_pos_bound n d Hd) as Hr.
  destruct (Z.ltb_spec (2 * (n mod d)) d);
    [|destruct (Z.ltb_spec d (2 * (n mod d))); [|destruct (Z.even (n / d))]];
    nia.
Qed.

Lemma div_half_even_one (n : Z) : div_half_even n 1 = n.
Proof.
  unfold div_half_even. rewrite Z.div_1_r, Z.mod_1_r. reflexivity.
Qed.

(** Below 2^53 a double and its neighbours are at most 1 apart, so rounding
    moves a number by at most one half. *)
Lemma nearest_double_near (y : Z) :
  (Z.abs y < 2 ^ 1127 ->
   2 * Z.abs (nearest_double y 1 - y) <= 2 ^ 1074)%Z.
Proof.
  intros Hy. unfold nearest_double. rewrite Z.div_1_r.
  destruct (Z.ltb_spec (Z.abs y) (2 ^ 53)) as [Hs|Hb].
  - rewrite div_half_even_one.
    replace (y - y)%Z with 0%Z by lia. simpl Z.abs.
    assert (0 < 2 ^ 1074)%Z by (apply Z.pow_pos_nonneg; lia). lia.
  - assert (Ha : (0 < Z.abs y)%Z)
      by (assert (0 < 2 ^ 53)%Z by (apply Z.pow_pos_nonneg; lia); lia).
    assert (Hl : (Z.log2 (Z.abs y) < 1127)%Z)
      by (apply Z.log2_lt_pow2; [exact Ha | exact Hy]).
    assert (Hl53 : (53 <= Z.log2 (Z.abs y))%Z)
      by (apply Z.log2_le_pow2; [exact Ha | exact Hb]).
    set (e := (Z.log2 (Z.abs y) - 52)%Z) in *.
    assert (Hg : (0 < 2 ^ e)%Z) by (apply Z.pow_pos_nonneg; lia).
    assert (Hge : (2 ^ e <= 2 ^ 1074)%Z) by (apply Z.pow_le_mono_r; lia).
    rewrite Z.mul_1_l.
    pose proof (@div_half_even_near y (2 ^ e)%Z Hg) as Hn.
    replace (2 ^ e * div_half_even y (2 ^ e) - y)%Z
      with (div_half_even y (2 ^ e) * 2 ^ e - y)%Z by ring.
    lia.
Qed.

(** For a double from -2 up to, but not including, 2^53, [x - 1] is a double
    below [x], and not below [x - 2]. *)
Lemma float_sub_one (x : Z) :
  (- pt 2 <= x < pt (2 ^ 53))%Z ->
  (float_sub x (pt 1) < x /\ x - pt 2 <= float_sub x (pt 1))%Z.
Proof.
  unfold pt, float_sub. intros Hx.
  assert (HU : (0 < 2 ^ 1074)%Z) by (apply Z.pow_pos_nonneg; lia).
  assert (E : (2 ^ 1127 = 2 ^ 53 * 2 ^ 1074)%Z)
    by (rewrite <- Z.pow_add_r by lia; reflexivity).
  set (U := (2 ^ 1074)%Z) in *.
  assert (H53 : (4 <= 2 ^ 53)%Z)
    by (change 4%Z with (2 ^ 2)%Z; apply Z.pow_le_mono_r; lia).
  assert (Hy : (Z.abs (x - 1 * U) < 2 ^ 1127)%Z) by (rewrite E; nia).
  pose proof (@nearest_double_near _ Hy) as Hn. fold U in Hn. lia.
Qed.

Lemma pt_pos : (0 < pt 1)%Z.
Proof. unfold pt. rewrite Z.mul_1_l. apply Z.pow_pos_nonneg; lia. Qed.

Lemma thresholds_cases (ss : list Z) :
  thresholds ss =
  match ss with
  | [] => (0, float_sub 0 (pt 1), float_sub (float_sub 0 (pt 1)) (pt 1))
  | [a] => (a, float_sub a (pt 1), float_sub (float_sub a (pt 1)) (pt 1))
  | [a; b] => (a, b, float_sub b (pt 1))
  | a :: b :: c :: _ => (a, b, c)
  end%Z.
Proof. destruct ss as [|a [|b [|c ss]]]; reflexivity. Qed.

(** Two subtractions in a row, starting from a size that is not negative. *)
Lemma float_sub_twice (a : Z) :
  (0 <= a < pt (2 ^ 53))%Z ->
  (float_sub (float_sub a (pt 1)) (pt 1) < float_sub a (pt 1) < a)%Z.
Proof.
  intros Ha. pose proof pt_pos as Hp.
  assert (H2 : pt 2 = (2 * pt 1)%Z) by (unfold pt; ring).
  destruct (@float_sub_one a) as [H1 H1']; [lia|].
  destruct (@float_sub_one (float_sub a (pt 1))) as [H3 _]; lia.
Qed.

(** The thresholds go strictly down when the sizes are not negative and
    below 2^53. *)
Lemma thresholds_desc (ss : list Z) :
  StronglySorted (fun a b => (b < a)%Z) ss ->
  (forall x, In x ss -> (0 <= x < pt (2 ^ 53))%Z) ->
  (snd (thresholds ss) < snd (fst (thresholds ss))
   /\ snd (fst (thresholds ss)) < fst (fst (thresholds ss)))%Z.
Proof.
  intros Hs Hb. rewrite thresholds_cases. pose proof pt_pos as Hp.
  assert (H2 : pt 2 = (2 * pt 1)%Z) by (unfold pt; ring).
  assert (H0 : (0 <= 0 < pt (2 ^ 53))%Z).
  { split; [lia|]. unfold pt. apply Z.mul_pos_pos; apply Z.pow_pos_nonneg; lia. }
  destruct ss as [|a [|b [|c ss]]]; cbn [fst snd].
  - apply float_sub_twice. exact H0.
  - apply float_sub_twice. apply Hb. now left.
  - inversion Hs as [|? ? _ Ha]; subst. inversion Ha; subst.
    split; [|assumption].
    apply float_sub_one. specialize (Hb b (or_intror (or_introl eq_refl))). lia.
  - inversion Hs as [|? ? Hs' Ha]; subst.
    inversion Ha as [|? ? Hab _]; subst.
    inversion Hs' as [|? ? _ Hb']; subst. inversion Hb'; subst. lia.
Qed.

(** C2: after the title texts are taken out, the sizes of the remaining spans
    are listed without repetition from the largest down, and the thresholds
    are read off that list: H1-size is its first entry, H2-size its second,
    or H1-size minus 1 when there is none, H3-size its third, or H2-size
    minus 1 when there is none ([float_sub] is the subtraction of the
    source, on doubles); these are the thresholds with which
    [assign_heading_levels] labels the spans. *)
Theorem thresholds_from_distinct_sizes {U : Unicode}
  (spans_by_page : dict (list span)) (title_lines : list span) :
  let filtered := filtered_spans spans_by_page title_lines in
  let ss := sorted_sizes filtered in
  (forall x, In x ss <-> exists s, In s filtered /\ font_size s = x)
  /\ StronglySorted (fun a b => (b < a)%Z) ss
  /\ (filtered <> [] -> ss <> [])
  /\ thresholds ss =
     match ss with
     | [] => (0, float_sub 0 (pt 1), float_sub (float_sub 0 (pt 1)) (pt 1))
     | [a] => (a, float_sub a (pt 1), float_sub (float_sub a (pt 1)) (pt 1))
     | [a; b] => (a, b, float_sub b (pt 1))
     | a :: b :: c :: _ => (a, b, c)
     end%Z
  /\ assign_heading_levels spans_by_page title_lines =
     sort_by Heading.key_lt
       (first_occurrences (flat_map (label (thresholds ss)) filtered)).
Proof.
  intros filtered ss. repeat split.
  - apply sorted_sizes_In.
  - apply sorted_sizes_In.
  - apply sorted_sizes_sorted.
  - intros Hne Hss. destruct filtered as [|s fs] eqn:E; [congruence|].
    assert (H : In (font_size s) ss)
      by (apply sorted_sizes_In; exists s; split; [now left | reflexivity]).
    rewrite Hss in H. destruct H.
  - apply thresholds_cases.
  - apply assign_heading_levels_eq.
Qed.

Lemma sorted_sizes_bounded (filtered : list span) :
  (forall s, In s filtered -> (0 <= font_size s < pt (2 ^ 53))%Z) ->
  forall x, In x (sorted_sizes filtered) -> (0 <= x < pt (2 ^ 53))%Z.
Proof.
  intros Hb x Hx. apply sorted_sizes_In in Hx.
  destruct Hx as (s & Hs & <-). now apply Hb.
Qed.

(** ** Labelling the spans *)

Lemma raw_headings_In {U : Unicode} (filtered : list span) (h : heading) :
  In h (raw_headings filtered) <->
  exists s l, In s filtered
    /\ level_of (thresholds (sorted_sizes filtered)) s = Some l
    /\ is_valid_heading (text s) = true
    /\ h = Heading.Make l (text s) (page s).
Proof.
  unfold raw_headings. rewrite in_flat_map. unfold label. split.
  - intros (s & Hs & Hh). exists s.
    destruct (level_of _ s) as [l|]; [|destruct Hh].
    destruct (is_valid_heading (text s)) eqn:V; [|destruct Hh].
    destruct Hh as [<-|[]]. exists l. auto.
  - intros (s & l & Hs & Hl & V & ->). exists s. split; [exact Hs|].
    rewrite Hl, V. now left.
Qed.

Lemma level_of_cases (h1 h2 h3 : Z) (s : span) :
  (h3 < h2 < h1)%Z ->
  (level_of (h1, h2, h3) s = Some H1 <-> font_size s = h1 /\ is_bold s = true)
  /\ (level_of (h1, h2, h3) s = Some H2 <-> font_size s = h2)
  /\ (level_of (h1, h2, h3) s = Some H3 <-> font_size s = h3)
  /\ (level_of (h1, h2, h3) s = None <->
      ~ (font_size s = h1 /\ is_bold s = true)
      /\ font_size s <> h2 /\ font_size s <> h3).
Proof.
  intros Hd. unfold level_of.
  destruct (Z.eqb_spec (font_size s) h1) as [E1|E1];
  destruct (Z.eqb_spec (font_size s) h2) as [E2|E2];
  destruct (Z.eqb_spec (font_size s) h3) as [E3|E3];
  destruct (is_bold s); simpl;
  repeat split; intros; try discriminate; try congruence; try lia;
  intuition (try congruence; try lia).
Qed.

(** ~C3: for a span of size 1e16 among spans of that size only, all three
    thresholds are 1e16, because 1e16 - 1 is 1e16 on doubles: the span has
    the H3-size, and the H1-size, but is labelled H2. *)
Lemma huge_size_is_labelled_h2 :
  thresholds (sorted_sizes (filtered_spans huge_page []))
  = (pt (10 ^ 16), pt (10 ^ 16), pt (10 ^ 16))
  /\ font_size (huge_span "Alpha" 10 22)
     = snd (thresholds (sorted_sizes (filtered_spans huge_page [])))
  /\ level_of (thresholds (sorted_sizes (filtered_spans huge_page [])))
       (huge_span "Alpha" 10 22) = Some H2.
Proof. vm_compute. repeat split; reflexivity. Qed.

(** C3, amended: when the sizes of the spans that are left after the title
    texts are taken out are not negative and below 2^53 (so that a size
    minus 1 is a smaller double and the three thresholds differ), a span is
    labelled H1 exactly when its size is H1-size and it is bold, H2 exactly
    when its size is H2-size, H3 exactly when its size is H3-size, bold or
    not, and gets no level otherwise; the headings of the output are those
    of the labelled spans whose text is a valid heading, so a span without a
    level gives none. *)
Theorem level_assignment {U : Unicode}
  (spans_by_page : dict (list span)) (title_lines : list span) :
  (forall s, In s (filtered_spans spans_by_page title_lines) ->
     (0 <= font_size s < pt (2 ^ 53))%Z) ->
  let filtered := filtered_spans spans_by_page title_lines in
  let th := thresholds (sorted_sizes filtered) in
  let h1_size := fst (fst th) in
  let h2_size := snd (fst th) in
  let h3_size := snd th in
  (forall s : span,
     (level_of th s = Some H1 <-> font_size s = h1_size /\ is_bold s = true)
     /\ (level_of th s = Some H2 <-> font_size s = h2_size)
     /\ (level_of th s = Some H3 <-> font_size s = h3_size)
     /\ (level_of th s = None <->
         ~ (font_size s = h1_size /\ is_bold s = true)
         /\ font_size s <> h2_size /\ font_size s <> h3_size))
  /\ (forall h : heading,
        In h (assign_heading_levels spans_by_page title_lines) <->
        exists s l, In s filtered /\ level_of th s = Some l
          /\ is_valid_heading (text s) = true
          /\ h = Heading.Make l (text s) (page s)).
Proof.
  intros Hb filtered th h1_size h2_size h3_size. split.
  - intros s.
    assert (Hd := thresholds_desc (sorted_sizes_sorted filtered)
                    (sorted_sizes_bounded filtered Hb)).
    fold th in Hd. fold h1_size h2_size h3_size in Hd.
    replace th with (h1_size, h2_size, h3_size)
      by (unfold h1_size, h2_size, h3_size; now destruct th as [[? ?] ?]).
    apply level_of_cases. lia.
  - intros h. rewrite assign_heading_levels_In. apply raw_headings_In.
Qed.

Lemma NoDup_all_equal (l : list Z) (a : Z) :
  NoDup l -> In a l -> (forall x, In x l -> x = a) -> l = [a].
Proof.
  intros Hn Ha Hall. destruct l as [|x l]; [destruct Ha|].
  assert (x = a) by (apply Hall; now left). subst x.
  destruct l as [|y l]; [reflexivity|].
  assert (y = a) by (apply Hall; right; now left). subst y.
  inversion Hn as [|? ? Hx _]. exfalso. apply Hx. now left.
Qed.

Lemma sorted_sizes_NoDup (filtered : list span) : NoDup (sorted_sizes filtered).
Proof.
  unfold sorted_sizes, sorted_reverse.
  apply (Permutation_NoDup (Permutation_sym (sort_by_perm _ _))).
  apply keys_Counter.
Qed.

Lemma flat_map_nil (A B : Type) (f : A -> list B) (l : list A) :
  (forall x, In x l -> f x = []) -> flat_map f l = [].
Proof.
  induction l as [|x l IH]; simpl; intros H; [reflexivity|].
  rewrite (H x (or_introl eq_refl)), IH; auto.
Qed.

(** ~C10: two spans of size 1e16, none bold, and nothing else: H2-size, the
    double 1e16 - 1, is 1e16 again, and both spans come out as H2. *)
Lemma huge_single_size_gives_headings :
  forallb (fun s => Z.eqb (font_size s) (pt (10 ^ 16)) && negb (is_bold s))
    (filtered_spans huge_page []) = true
  /\ @assign_heading_levels ascii_tables huge_page []
     = [ Heading.Make H2 (lit "Alpha") 0; Heading.Make H2 (lit "Beta") 0 ].
Proof. vm_compute. split; reflexivity. Qed.

(** C10, amended: when the spans left after the title texts are taken out
    all have one and the same size, not negative and below 2^53, and none is
    bold, the thresholds are that size, that size minus 1 and that size
    minus 2, each below the one before, no span gets a level, and
    [assign_heading_levels] returns the empty list. *)
Theorem single_size_not_bold_gives_nothing {U : Unicode}
  (spans_by_page : dict (list span)) (title_lines : list span) :
  let filtered := filtered_spans spans_by_page title_lines in
  (forall s s', In s filtered -> In s' filtered -> font_size s = font_size s') ->
  (forall s, In s filtered -> (0 <= font_size s < pt (2 ^ 53))%Z) ->
  (forall s, In s filtered -> is_bold s = false) ->
  (forall s, In s filtered ->
     thresholds (sorted_sizes filtered) =
       (font_size s, float_sub (font_size s) (pt 1),
        float_sub (float_sub (font_size s) (pt 1)) (pt 1))
     /\ (float_sub (float_sub (font_size s) (pt 1)) (pt 1)
         < float_sub (font_size s) (pt 1) < font_size s)%Z
     /\ level_of (thresholds (sorted_sizes filtered)) s = None)
  /\ assign_heading_levels spans_by_page title_lines = [].
Proof.
  intros filtered Hsize Hbound Hbold.
  assert (Hth : forall s, In s filtered ->
            thresholds (sorted_sizes filtered) =
            (font_size s, float_sub (font_size s) (pt 1),
             float_sub (float_sub (font_size s) (pt 1)) (pt 1))).
  { intros s Hs.
    assert (E : sorted_sizes filtered = [font_size s]).
    { apply NoDup_all_equal.
      - apply sorted_sizes_NoDup.
      - apply sorted_sizes_In. now exists s.
      - intros x Hx. apply sorted_sizes_In in Hx.
        destruct Hx as (s' & Hs' & <-). now apply Hsize. }
    now rewrite E. }
  assert (Hnone : forall s, In s filtered ->
            level_of (thresholds (sorted_sizes filtered)) s = None).
  { intros s Hs. rewrite (Hth s Hs). unfold level_of.
    pose proof (float_sub_twice (Hbound s Hs)) as Hd.
    rewrite (Hbold s Hs), andb_false_r.
    destruct (Z.eqb_spec (font_size s) (float_sub (font_size s) (pt 1)));
      [lia|].
    destruct (Z.eqb_spec (font_size s)
                (float_sub (float_sub (font_size s) (pt 1)) (pt 1)));
      [lia | reflexivity]. }
  split.
  - intros s Hs. split; [now apply Hth|].
    split; [apply float_sub_twice; now apply Hbound | now apply Hnone].
  - rewrite assign_heading_levels_eq. unfold raw_headings.
    rewrite flat_map_nil; [reflexivity|].
    intros s Hs. unfold label. fold filtered. now rewrite (Hnone s Hs).
Qed.

(** ** Headings are valid and are not title texts *)

Lemma filtered_spans_In (spans_by_page : dict (list span))
  (title_lines : list span) (s : span) :
  In s (filtered_spans spans_by_page title_lines) <->
  In s (List.concat (values spans_by_page))
  /\ ~ In (text s) (map text title_lines).
Proof.
  unfold filtered_spans. rewrite filter_In, negb_true_iff.
  rewrite <- not_true_iff_false, existsb_str_eqb. tauto.
Qed.

Lemma assign_heading_levels_sound {U : Unicode}
  (spans_by_page : dict (list span)) (title_lines : list span) (h : heading) :
  In h (assign_heading_levels spans_by_page title_lines) ->
  is_valid_heading (Heading.text h) = true
  /\ ~ In (Heading.text h) (map text title_lines)
  /\ exists s, In s (List.concat (values spans_by_page))
       /\ text s = Heading.text h /\ page s = Heading.page h.
Proof.
  rewrite assign_heading_levels_In, raw_headings_In.
  intros (s & l & Hs & _ & V & ->). simpl.
  apply filtered_spans_In in Hs. destruct Hs as [Hin Hnot].
  repeat split; auto. now exists s.
Qed.

(** C6: every heading of the final outline has a text on which
    [is_valid_heading] answers true, and this text is the text of none of
    the spans that make up the extracted title. *)
Theorem outline_headings_valid_not_title {U : Unicode}
  (spans_by_page : dict (list span)) (h : heading) :
  In h (headings (build_outline spans_by_page)) ->
  is_valid_heading (Heading.text h) = true
  /\ ~ In (Heading.text h)
        (map text (snd (fst (extract_title (page0_of spans_by_page))))).
Proof.
  unfold build_outline.
  destruct (extract_title (page0_of spans_by_page))
    as [[title_text title_lines] page0_after]. simpl.
  intros H. apply assign_heading_levels_sound in H. tauto.
Qed.

(** ** What the calls do to their arguments *)

(** After [extract_title] the caller's list is the stable sort of what it
    was, whether a title was found or not. *)
Lemma extract_title_after {U : Unicode} (spans_page0 : list span) :
  snd (extract_title spans_page0) = sort_by size_desc_then_top spans_page0.
Proof.
  unfold extract_title. destruct spans_page0 as [|s l]; [reflexivity|].
  now destruct (rejected_title _).
Qed.

(** ~C9: [extract_title] does not leave its argument as it was: a small
    span placed before a large one comes out behind it. *)
Lemma extract_title_reorders_its_argument :
  snd (@extract_title ascii_tables small_then_large) <> small_then_large.
Proof. vm_compute. intros H. discriminate H. Qed.

(** C9, amended: [extract_title] sorts the list it is given in place: after
    the call the list holds the same spans, each unchanged, ordered by font
    size from the largest down and by top within a size, spans of equal size
    and top in the order they had; [assign_heading_levels] leaves the dict,
    its lists and the title spans as they were. *)
Theorem calls_and_their_arguments {U : Unicode} :
  (forall spans_page0 : list span,
     let after := snd (extract_title spans_page0) in
     Permutation after spans_page0
     /\ StronglySorted
          (fun a b =>
             (font_size b < font_size a)%Z
             \/ (font_size a = font_size b
                 /\ (y0 (bbox a) <= y0 (bbox b))%Q))
          after
     /\ forall (sz : Z) (top : Q),
          let same s := Z.eqb (font_size s) sz && Qeq_bool (y0 (bbox s)) top in
          filter same after = filter same spans_page0)
  /\ (forall (spans_by_page : dict (list span)) (title_lines : list span),
        snd (assign_heading_levels_run (spans_by_page, title_lines))
        = (spans_by_page, title_lines)).
Proof.
  split; [|reflexivity].
  intros spans_page0 after. unfold after. rewrite extract_title_after.
  split; [|split].
  - apply sort_by_perm.
  - apply StronglySorted_weaken
      with (R := fun a b => size_desc_then_top b a = false);
      [|apply sort_by_sorted;
        [apply size_desc_then_top_asym | apply size_desc_then_top_cotrans]].
    intros a b. unfold size_desc_then_top. split_keys; intros; bool_to_prop.
    + right. split; [lia | assumption].
    + left. lia.
  - intros sz top. apply sort_by_stable.
    intros x y Hx. cbv beta in *.
    apply andb_true_iff in Hx. destruct Hx as [Hs Ht].
    unfold size_desc_then_top, pair_lt. simpl.
    destruct (Z.eqb_spec (font_size y) sz) as [Ey|Ey]; simpl;
      [|reflexivity].
    bool_to_prop. subst sz. rewrite Ey, Z.eqb_refl. intros Hlt.
    bool_to_prop. apply Qeq_bool_false. lra.
Qed.

(** ** ASCII text does not depend on the Unicode tables *)

Lemma ascii_tables_facts : UnicodeFacts ascii_tables.
Proof.
  constructor; simpl; try reflexivity; auto.
  intros p Hp. unfold is_ascii in Hp. apply N.ltb_lt in Hp.
  unfold char_eqb, ascii_lower, bullet.
  destruct (ascii_isupper p); apply N.eqb_neq; simpl; lia.
Qed.

Section ReAgree.
Import Re.
Variable P : char -> Prop.

Lemma nullable_agree (r r' : regex) :
  agree P r r' -> nullable r = nullable r'.
Proof. induction 1; simpl; congruence. Qed.

Lemma deriv_agree (c : char) (r r' : regex) :
  P c -> agree P r r' -> agree P (deriv c r) (deriv c r').
Proof.
  intros Hc. induction 1 as [| |p q Hpq|a a' b b' Ha IHa Hb IHb
                             |a a' b b' Ha IHa Hb IHb|a a' Ha IHa]; simpl.
  - constructor.
  - constructor.
  - rewrite (Hpq c Hc). destruct (q c); constructor.
  - rewrite (nullable_agree Ha).
    destruct (nullable a'); repeat constructor; assumption.
  - now constructor.
  - repeat constructor; assumption.
Qed.

Lemma fullmatch_agree (s : str) (r r' : regex) :
  Forall P s -> agree P r r' -> fullmatch r s = fullmatch r' s.
Proof.
  intros Hs. revert r r'. induction Hs as [|c s Hc Hs IH]; intros r r' Hr.
  - now apply nullable_agree.
  - simpl. apply IH. now apply deriv_agree.
Qed.

Lemma match_anchored_agree (s : str) (r r' : regex) :
  Forall P s -> agree P r r' -> match_anchored r s = match_anchored r' s.
Proof.
  intros Hs Hr. unfold match_anchored. apply fullmatch_agree; [exact Hs|].
  repeat constructor; auto.
Qed.
End ReAgree.

Lemma forallb_rev (A : Type) (p : A -> bool) (l : list A) :
  forallb p (rev l) = forallb p l.
Proof.
  induction l as [|x l IH]; simpl; [reflexivity|].
  rewrite forallb_app, IH. simpl. rewrite andb_true_r. apply andb_comm.
Qed.

Lemma lstrip_forallb {V : Unicode} (p : char -> bool) (s : str) :
  forallb p s = true -> forallb p (lstrip s) = true.
Proof.
  induction s as [|c s IH]; simpl; [auto|].
  intros H. destruct (isspace c); [|exact H].
  apply andb_true_iff in H. now apply IH.
Qed.

Lemma strip_forallb {V : Unicode} (p : char -> bool) (s : str) :
  forallb p s = true -> forallb p (strip s) = true.
Proof.
  intros H. unfold strip, rstrip. rewrite forallb_rev.
  apply lstrip_forallb. rewrite forallb_rev. now apply lstrip_forallb.
Qed.

Lemma all_ascii_Forall (s : str) :
  all_ascii s = true -> Forall (fun c => is_ascii c = true) s.
Proof. unfold all_ascii. rewrite forallb_forall. apply Forall_forall. Qed.

Lemma all_ascii_app (a b : str) :
  all_ascii (a ++ b) = all_ascii a && all_ascii b.
Proof. apply forallb_app. Qed.

Section Transfer.
Context {U : Unicode} {HU : UnicodeFacts U}.
Import Re.

Lemma lstrip_ascii (s : str) :
  all_ascii s = true -> @lstrip U s = @lstrip ascii_tables s.
Proof.
  unfold all_ascii. induction s as [|c s IH]; simpl; [reflexivity|].
  intros H. apply andb_true_iff in H. destruct H as [Hc Hs].
  rewrite (isspace_ascii c Hc), (IH Hs). reflexivity.
Qed.

Lemma strip_ascii (s : str) :
  all_ascii s = true -> @strip U s = @strip ascii_tables s.
Proof.
  intros H. unfold strip, rstrip. rewrite (lstrip_ascii s H).
  rewrite lstrip_ascii; [reflexivity|].
  unfold all_ascii. rewrite forallb_rev. now apply lstrip_forallb.
Qed.

Lemma normalize_text_ascii (s : str) :
  all_ascii s = true ->
  @normalize_text U s = @normalize_text ascii_tables s.
Proof.
  intros H. unfold normalize_text. simpl. rewrite <- (strip_ascii s H).
  apply nfc_ascii. now apply strip_forallb.
Qed.

Lemma normalize_text_all_ascii (V : Unicode) (HV : UnicodeFacts V) (s : str) :
  all_ascii s = true -> all_ascii (@normalize_text V s) = true.
Proof.
  intros H. unfold normalize_text.
  rewrite nfc_ascii; now apply strip_forallb.
Qed.

Ltac agree_tac :=
  repeat (constructor; try solve [auto]);
  intros c Hc;
  solve [ apply isspace_ascii; exact Hc
        | apply isdecimal_ascii; exact Hc
        | apply casefold_ascii; [reflexivity | exact Hc] ].

Lemma agree_page_date_version :
  agree (fun c => is_ascii c = true)
    (@re_page_date_version U) (@re_page_date_version ascii_tables).
Proof. unfold re_page_date_version, Plus, Rep12, Opt, Chr, ci, ws, dg. simpl. agree_tac. Qed.

Lemma agree_clock :
  agree (fun c => is_ascii c = true) (@re_clock U) (@re_clock ascii_tables).
Proof. unfold re_clock, Plus, Rep12, Opt, Chr, ci, ws, dg. simpl. agree_tac. Qed.

Lemma agree_slash_date :
  agree (fun c => is_ascii c = true)
    (@re_slash_date U) (@re_slash_date ascii_tables).
Proof. unfold re_slash_date, Plus, Rep12, Opt, Chr, ci, ws, dg. simpl. agree_tac. Qed.

Lemma agree_symbols :
  agree (fun c => is_ascii c = true) (@re_symbols U) (@re_symbols ascii_tables).
Proof.
  unfold re_symbols, Plus.
  assert (H : forall c, is_ascii c = true ->
            @nonword_or_underscore U c = @nonword_or_underscore ascii_tables c).
  { intros c Hc. unfold nonword_or_underscore. now rewrite (isalnum_ascii c Hc). }
  repeat constructor; exact H.
Qed.

(** On ASCII text the validator is the one of the ASCII tables. *)
Lemma is_valid_heading_ascii (s : str) :
  all_ascii s = true ->
  @is_valid_heading U s = @is_valid_heading ascii_tables s.
Proof.
  intros H. unfold is_valid_heading.
  rewrite (normalize_text_ascii s H).
  assert (Hn := normalize_text_all_ascii ascii_tables_facts s H).
  set (t := @normalize_text ascii_tables s) in *.
  rewrite (strip_ascii t Hn).
  rewrite (match_anchored_agree (s := @strip ascii_tables t)
             (all_ascii_Forall _ (strip_forallb _ _ Hn)) agree_page_date_version).
  rewrite (match_anchored_agree (all_ascii_Forall _ Hn) agree_clock).
  rewrite (match_anchored_agree (all_ascii_Forall _ Hn) agree_slash_date).
  reflexivity.
Qed.

Lemma rejected_title_ascii (s : str) :
  all_ascii s = true ->
  @rejected_title U s = @rejected_title ascii_tables s.
Proof.
  intros H. unfold rejected_title.
  now rewrite (match_anchored_agree (all_ascii_Forall _ H) agree_symbols).
Qed.
End Transfer.

Lemma all_ascii_join (sep : str) (parts : list str) :
  all_ascii sep = true -> forallb all_ascii parts = true ->
  all_ascii (join sep parts) = true.
Proof.
  intros Hsep. induction parts as [|p parts IH]; simpl; [reflexivity|].
  intros H. apply andb_true_iff in H. destruct H as [Hp Hps].
  destruct parts as [|q parts]; [exact Hp|].
  rewrite !all_ascii_app, Hp, Hsep. simpl. now apply IH.
Qed.

Lemma title_candidates_In (l : list span) (s : span) :
  In s (title_candidates l) -> In s l.
Proof.
  unfold title_candidates. destruct l as [|f l]; [auto|].
  rewrite sort_by_In, filter_In. tauto.
Qed.

Section TransferSpans.
Context {U : Unicode} {HU : UnicodeFacts U}.

Lemma merge_loop_ascii (title_spans : list span) (m : merging) :
  forallb ascii_span title_spans = true ->
  all_ascii (current_line m) = true ->
  forallb all_ascii (m_lines m) = true ->
  fold_left (@merge_step U) title_spans m
    = fold_left (@merge_step ascii_tables) title_spans m
  /\ all_ascii (current_line (fold_left (@merge_step ascii_tables) title_spans m))
      = true
  /\ forallb all_ascii (m_lines (fold_left (@merge_step ascii_tables) title_spans m))
      = true.
Proof.
  revert m. induction title_spans as [|s l IH]; intros m Hl Hc Hm; simpl.
  - auto.
  - simpl in Hl. apply andb_true_iff in Hl. destruct Hl as [Hs Hl].
    assert (E : @merge_step U m s = @merge_step ascii_tables m s).
    { unfold merge_step. now rewrite (strip_ascii _ Hc). }
    rewrite E. apply IH; [exact Hl| |].
    + unfold merge_step.
      destruct (prev_bottom m) as [pb|]; simpl;
        [destruct (Qltb _ _); simpl|];
        rewrite ?all_ascii_app; simpl; try rewrite Hc; exact Hs.
    + unfold merge_step.
      destruct (prev_bottom m) as [pb|]; simpl;
        [destruct (Qltb _ _); simpl|]; try exact Hm.
      rewrite forallb_app, Hm. simpl. rewrite andb_true_r.
      now apply strip_forallb.
Qed.

Lemma merge_lines_ascii (title_spans : list span) :
  forallb ascii_span title_spans = true ->
  @merge_lines U title_spans = @merge_lines ascii_tables title_spans
  /\ forallb all_ascii (@merge_lines ascii_tables title_spans) = true.
Proof.
  intros H. unfold merge_lines.
  destruct (@merge_loop_ascii title_spans (Merging [] [] None) H)
    as (E & Hc & Hm); [reflexivity | reflexivity |].
  rewrite E.
  set (m := fold_left (@merge_step ascii_tables) title_spans _) in *.
  rewrite (strip_ascii _ Hc). split; [reflexivity|].
  destruct (nonempty _); [|exact Hm].
  rewrite forallb_app, Hm. simpl. rewrite andb_true_r.
  now apply strip_forallb.
Qed.

(** On spans with ASCII text the title is the one the ASCII tables give. *)
Lemma extract_title_ascii (spans_page0 : list span) :
  forallb ascii_span spans_page0 = true ->
  @extract_title U spans_page0 = @extract_title ascii_tables spans_page0.
Proof.
  intros H. unfold extract_title. destruct spans_page0 as [|s0 l0]; [reflexivity|].
  set (sorted := sort_by size_desc_then_top (s0 :: l0)).
  assert (Hc : forallb ascii_span (title_candidates sorted) = true).
  { apply forallb_forall. intros s Hs. apply title_candidates_In in Hs.
    apply sort_by_In in Hs. rewrite forallb_forall in H. now apply H. }
  destruct (merge_lines_ascii _ Hc) as [E Hl]. rewrite E.
  assert (Hj : all_ascii (join (lit " ") (@merge_lines ascii_tables
                 (title_candidates sorted))) = true)
    by (apply all_ascii_join; [reflexivity | exact Hl]).
  rewrite (strip_ascii _ Hj).
  rewrite rejected_title_ascii; [reflexivity|].
  now apply strip_forallb.
Qed.

Lemma flat_map_ext_In (A B : Type) (f g : A -> list B) (l : list A) :
  (forall x, In x l -> f x = g x) -> flat_map f l = flat_map g l.
Proof.
  induction l as [|x l IH]; simpl; intros H; [reflexivity|].
  rewrite (H x (or_introl eq_refl)), IH; auto.
Qed.

(** On spans with ASCII text the headings are those of the ASCII tables. *)
Lemma assign_heading_levels_ascii (spans_by_page : dict (list span))
  (title_lines : list span) :
  forallb ascii_span (List.concat (values spans_by_page)) = true ->
  @assign_heading_levels U spans_by_page title_lines
  = @assign_heading_levels ascii_tables spans_by_page title_lines.
Proof.
  intros H. rewrite !assign_heading_levels_eq. do 2 f_equal.
  unfold raw_headings. apply flat_map_ext_In.
  intros s Hs. apply filtered_spans_In in Hs. destruct Hs as [Hs _].
  rewrite forallb_forall in H. specialize (H s Hs).
  unfold label. now rewrite (is_valid_heading_ascii _ H).
Qed.
End TransferSpans.

(** ** The one-page document *)

(** ~C1: on the one-page document the outline is not the single heading
    "Section A": the span of size 12 is a heading too. *)
Lemma one_page_outline_is_not_one_heading :
  @build_outline ascii_tables (one_page (box 10 40) (box 60 80) (box 90 102))
  <> Outline (lit "Title Text") [Heading.Make H1 (lit "Section A") 0].
Proof. vm_compute. intros H. discriminate H. Qed.

(** C1, amended: for a one-page document whose spans are "Title Text" (size
    30, bold), "Section A" (size 20, bold) and "sub note" (size 12, not
    bold), the title is "Title Text" and the outline holds two headings, H1
    "Section A" and H2 "sub note", both on page 0: with two sizes left after
    the title is taken out, H1-size is 20, H2-size is 12 and H3-size is 11,
    so the span of size 12 is labelled H2. *)
Theorem one_page_outline {U : Unicode} (HU : UnicodeFacts U) (b1 b2 b3 : rect) :
  build_outline (one_page b1 b2 b3) =
    Outline (lit "Title Text")
      [ Heading.Make H1 (lit "Section A") 0;
        Heading.Make H2 (lit "sub note") 0 ]
  /\ thresholds
       (sorted_sizes
          (filtered_spans (one_page b1 b2 b3)
             (snd (fst (extract_title (page0_of (one_page b1 b2 b3)))))))
     = (pt 20, pt 12, pt 11).
Proof.
  unfold build_outline.
  assert (E : @extract_title U (page0_of (one_page b1 b2 b3)) =
              ((lit "Title Text", [Span (lit "Title Text") (pt 30) true b1 0]),
               page0_of (one_page b1 b2 b3))).
  { rewrite extract_title_ascii by reflexivity. vm_compute. reflexivity. }
  rewrite E. split; [|vm_compute; reflexivity].
  rewrite assign_heading_levels_ascii by reflexivity.
  vm_compute. reflexivity.
Qed.

Lemma one_page_outline_witness :
  @build_outline ascii_tables (one_page (box 10 40) (box 60 80) (box 90 102)) =
    Outline (lit "Title Text")
      [ Heading.Make H1 (lit "Section A") 0;
        Heading.Make H2 (lit "sub note") 0 ].
Proof.
  exact (proj1 (@one_page_outline ascii_tables ascii_tables_facts
                  (box 10 40) (box 60 80) (box 90 102))).
Defined.

(** ** Filler text *)

(** Text made of the characters of the literal of line 22 is rejected, as
    long as normalizing leaves it as it is. *)
Lemma filler_text_is_rejected {U : Unicode} (s : str) :
  normalize_text s = s ->
  forallb (fun c => char_in c filler_chars) s = true ->
  is_valid_heading s = false.
Proof.
  intros Hn Hf. unfold is_valid_heading. rewrite Hn, Hf.
  now destruct (negb (nonempty s) || (len s <? MIN_HEADING_LEN)%nat).
Qed.

Lemma lstrip_bullets {U : Unicode} {HU : UnicodeFacts U} (s : str) :
  forallb (char_eqb bullet) s = true -> lstrip s = s.
Proof.
  destruct s as [|c s]; [reflexivity|].
  intros H. apply (proj1 (forallb_forall _ _)) with (x := c) in H;
    [|now left].
  apply char_eqb_eq in H. subst c. simpl. now rewrite isspace_bullet.
Qed.

Lemma strip_bullets {U : Unicode} {HU : UnicodeFacts U} (s : str) :
  forallb (char_eqb bullet) s = true -> strip s = s.
Proof.
  intros H. unfold strip, rstrip. rewrite (lstrip_bullets s H).
  rewrite lstrip_bullets by now rewrite forallb_rev.
  apply rev_involutive.
Qed.

Section Bullets.
Context {U : Unicode} {HU : UnicodeFacts U}.
Import Re.

Ltac bullet_tac :=
  repeat (constructor; try solve [auto]);
  intros c Hc; subst c;
  solve [ exact isspace_bullet
        | exact isdecimal_bullet
        | rewrite casefold_bullet; reflexivity ].

Lemma bullets_Forall (s : str) :
  forallb (char_eqb bullet) s = true ->
  Forall (fun c => c = bullet) s.
Proof.
  rewrite forallb_forall. intros H. apply Forall_forall.
  intros c Hc. symmetry. now apply char_eqb_eq, H.
Qed.

(** On text made of bullets the validator does not depend on the tables. *)
Lemma is_valid_heading_bullets (s : str) :
  forallb (char_eqb bullet) s = true ->
  @is_valid_heading U s = @is_valid_heading ascii_tables s.
Proof.
  intros H. unfold is_valid_heading, normalize_text.
  rewrite (strip_bullets s H), (nfc_bullet s H), (strip_bullets s H).
  assert (Ha : @strip ascii_tables s = s)
    by (apply (@strip_bullets ascii_tables ascii_tables_facts); exact H).
  simpl nfc. rewrite Ha, Ha.
  assert (E1 : match_anchored (@re_page_date_version U) s
               = match_anchored (@re_page_date_version ascii_tables) s).
  { apply match_anchored_agree with (P := fun c => c = bullet);
      [now apply bullets_Forall|].
    unfold re_page_date_version, Plus, Rep12, Opt, Chr, ci, ws, dg. simpl.
    bullet_tac. }
  assert (E2 : match_anchored (@re_clock U) s
               = match_anchored (@re_clock ascii_tables) s).
  { apply match_anchored_agree with (P := fun c => c = bullet);
      [now apply bullets_Forall|].
    unfold re_clock, Plus, Rep12, Opt, Chr, ci, ws, dg. simpl. bullet_tac. }
  assert (E3 : match_anchored (@re_slash_date U) s
               = match_anchored (@re_slash_date ascii_tables) s).
  { apply match_anchored_agree with (P := fun c => c = bullet);
      [now apply bullets_Forall|].
    unfold re_slash_date, Plus, Rep12, Opt, Chr, ci, ws, dg. simpl.
    bullet_tac. }
  now rewrite E1, E2, E3.
Qed.
End Bullets.

(** C8, at a text of two bullets: [is_valid_heading] answers true, because
    U+2022 is not among the characters of the literal of line 22. *)
Theorem two_bullets_are_accepted {U : Unicode} (HU : UnicodeFacts U) :
  char_in bullet filler_chars = false
  /\ is_valid_heading [bullet; bullet] = true.
Proof.
  split; [reflexivity|].
  rewrite is_valid_heading_bullets by reflexivity.
  vm_compute. reflexivity.
Qed.

Lemma two_bullets_are_accepted_witness :
  @is_valid_heading ascii_tables [bullet; bullet] = true.
Proof.
  exact (proj2 (@two_bullets_are_accepted ascii_tables ascii_tables_facts)).
Defined.

(** ** The title *)

Lemma group_lines_nonempty (pb : Q) (line rest : list span) :
  group_lines pb line rest <> [].
Proof.
  revert pb line. induction rest as [|s rest IH]; intros pb line; simpl.
  - discriminate.
  - destruct (Qltb _ _); [discriminate | apply IH].
Qed.

Lemma group_lines_lines_nonempty (pb : Q) (line rest : list span) :
  line <> [] -> Forall (fun g => g <> []) (group_lines pb line rest).
Proof.
  revert pb line. induction rest as [|s rest IH]; intros pb line Hl; simpl.
  - now repeat constructor.
  - destruct (Qltb _ _).
    + constructor; [exact Hl | apply IH; discriminate].
    + apply IH. now destruct line.
Qed.

(** The groups cut the candidates without moving or losing any. *)
Lemma group_lines_concat (pb : Q) (line rest : list span) :
  List.concat (group_lines pb line rest) = line ++ rest.
Proof.
  revert pb line. induction rest as [|s rest IH]; intros pb line; simpl.
  - now rewrite app_nil_r.
  - destruct (Qltb _ _); simpl; rewrite IH; [reflexivity|].
    now rewrite <- app_assoc.
Qed.

Lemma flat_map_space_join (g : list span) :
  g <> [] ->
  flat_map (fun s => lit " " ++ text s) g
  = lit " " ++ join (lit " ") (map text g).
Proof.
  induction g as [|s g IH]; [congruence|]. intros _.
  destruct g as [|s' g].
  - simpl. now rewrite app_nil_r.
  - change (flat_map (fun s => lit " " ++ text s) (s :: s' :: g))
      with ((lit " " ++ text s) ++ flat_map (fun s => lit " " ++ text s) (s' :: g)).
    rewrite IH by discriminate.
    change (join (lit " ") (map text (s :: s' :: g)))
      with (text s ++ lit " " ++ join (lit " ") (map text (s' :: g))).
    now rewrite <- app_assoc.
Qed.

Section MergeLoop.
Context {U : Unicode}.

Lemma merge_step_some (ls : list str) (cur : str) (pb : Q) (s : span) :
  merge_step (Merging ls cur (Some pb)) s =
  if Qltb VERTICAL_TOLERANCE (Qabs (y0 (bbox s) - pb))
  then Merging (ls ++ [strip cur]) (lit " " ++ text s) (Some (y1 (bbox s)))
  else Merging ls (cur ++ lit " " ++ text s) (Some (y1 (bbox s))).
Proof. unfold merge_step. simpl. now destruct (Qltb _ _). Qed.

Lemma merge_step_none (ls : list str) (cur : str) (s : span) :
  merge_step (Merging ls cur None) s =
  Merging ls (cur ++ lit " " ++ text s) (Some (y1 (bbox s))).
Proof. reflexivity. Qed.

(** The loop of the source against the groups of the specification. *)
Lemma merge_loop_groups (rest : list span) (ls : list str)
  (line : list span) (pb : Q) :
  let m := fold_left merge_step rest
             (Merging ls (flat_map (fun s => lit " " ++ text s) line) (Some pb)) in
  let gs := group_lines pb line rest in
  m_lines m
    = ls ++ map (fun g => strip (flat_map (fun s => lit " " ++ text s) g))
              (removelast gs)
  /\ current_line m = flat_map (fun s => lit " " ++ text s) (last gs []).
Proof.
  revert ls line pb. induction rest as [|s rest IH]; intros ls line pb.
  - simpl. now rewrite app_nil_r.
  - cbn [fold_left group_lines]. rewrite merge_step_some.
    destruct (Qltb VERTICAL_TOLERANCE (Qabs (y0 (bbox s) - pb))) eqn:E.
    + specialize (IH (ls ++ [strip (flat_map (fun s => lit " " ++ text s) line)])
                    [s] (y1 (bbox s))).
      cbn [flat_map] in IH. rewrite app_nil_r in IH.
      destruct IH as [IH1 IH2].
      pose proof (group_lines_nonempty (y1 (bbox s)) [s] rest) as Hne.
      destruct (group_lines (y1 (bbox s)) [s] rest) as [|g gs'] eqn:G;
        [congruence|].
      split.
      * rewrite IH1, <- app_assoc. reflexivity.
      * rewrite IH2. reflexivity.
    + specialize (IH ls (line ++ [s]) (y1 (bbox s))).
      rewrite flat_map_app in IH. cbn [flat_map] in IH.
      rewrite app_nil_r in IH. exact IH.
Qed.

(** [merge_lines] gives the lines of the specification. *)
Lemma merge_lines_spec (candidates : list span) :
  merge_lines candidates = spec_merge_lines candidates.
Proof.
  unfold merge_lines, spec_merge_lines, lines_of.
  destruct candidates as [|s rest]; [reflexivity|].
  cbn [fold_left]. rewrite merge_step_none.
  destruct (@merge_loop_groups rest [] [s] (y1 (bbox s))) as [H1 H2].
  cbn [flat_map] in H1, H2. rewrite app_nil_r in H1, H2.
  cbn [app] in H1, H2. cbn [app]. rewrite H1, H2. clear H1 H2.
  pose proof (group_lines_nonempty (y1 (bbox s)) [s] rest) as Hne.
  pose proof (@group_lines_lines_nonempty (y1 (bbox s)) [s] rest) as Hg.
  specialize (Hg ltac:(discriminate)).
  set (gs := group_lines (y1 (bbox s)) [s] rest) in *.
  assert (Hj : forall g, In g gs ->
            strip (flat_map (fun s => lit " " ++ text s) g) = joined_line g).
  { intros g Hin. unfold joined_line. rewrite flat_map_space_join; [reflexivity|].
    rewrite Forall_forall in Hg. now apply Hg. }
  destruct (exists_last Hne) as (front & g & Egs). rewrite Egs in *.
  rewrite removelast_last, last_last, map_app. simpl map.
  rewrite last_last, removelast_last.
  rewrite (Hj g) by (apply in_or_app; right; now left).
  assert (Hf : map (fun g0 => strip (flat_map (fun s0 => lit " " ++ text s0) g0)) front
               = map joined_line front).
  { apply map_ext_in. intros a Ha. apply Hj. apply in_or_app. now left. }
  destruct (nonempty (joined_line g)); [f_equal|]; exact Hf.
Qed.
End MergeLoop.

Lemma Permutation_filter (A : Type) (p : A -> bool) (l l' : list A) :
  Permutation l l' -> Permutation (filter p l) (filter p l').
Proof.
  induction 1 as [|x l l' _ IH|x y l|l l' l'' _ IH1 _ IH2]; simpl.
  - constructor.
  - destruct (p x); [now constructor | exact IH].
  - destruct (p x), (p y); try reflexivity. apply perm_swap.
  - now transitivity (filter p l').
Qed.

(** The first span after the sort by [(-font_size, top)] has the largest
    font size. *)
Lemma sorted_head_is_largest (spans_page0 : list span) (first : span)
  (rest : list span) :
  sort_by size_desc_then_top spans_page0 = first :: rest ->
  In first spans_page0
  /\ forall s, In s spans_page0 -> (font_size s <= font_size first)%Z.
Proof.
  intros E.
  assert (Hin : forall s, In s spans_page0 <-> In s (first :: rest))
    by (intros s; now rewrite <- E, sort_by_In).
  split; [apply Hin; now left|].
  intros s Hs. apply Hin in Hs. destruct Hs as [<-|Hs]; [lia|].
  pose proof (@sort_by_sorted _ size_desc_then_top size_desc_then_top_asym
                size_desc_then_top_cotrans spans_page0) as Hsorted.
  rewrite E in Hsorted. inversion Hsorted as [|? ? _ Hall]; subst.
  rewrite Forall_forall in Hall. specialize (Hall s Hs).
  revert Hall. unfold size_desc_then_top. split_keys; intros; bool_to_prop; lia.
Qed.

Lemma sort_by_nonempty (A : Type) (lt : A -> A -> bool) (l : list A) :
  l <> [] -> sort_by lt l <> [].
Proof.
  intros Hl E. apply Hl. apply Permutation_nil.
  rewrite <- E. apply sort_by_perm.
Qed.

(** ~C4: a page whose largest text is made of symbols only has no title,
    and no title spans, although the space-joined text of its largest span
    is not empty. *)
Lemma symbols_only_title_is_dropped :
  fst (@extract_title ascii_tables stars) = ([], [])
  /\ @strip ascii_tables
       (join (lit " ") (@spec_merge_lines ascii_tables stars)) = lit "**".
Proof. split; vm_compute; reflexivity. Qed.

(** C4, amended: on a page 0 that is not empty, [extract_title] takes the
    spans whose font size is the largest of the page, orders them by top and
    then by left, cuts them into lines (a span stays in the line of the span
    before it when the distance between its top and the bottom of that span
    is at most the tolerance 5), and space-joins the spans of a line and the
    lines; it returns this text with these spans, unless the text is empty,
    shorter than 2 characters or made of non-word characters and underscores
    only, when it returns the empty title and no span.  For "Annual Report"
    (size 28, top 10) and "2024 Edition" (size 28, top 30) the title is
    "Annual Report 2024 Edition". *)
Theorem extract_title_spec {U : Unicode} (HU : UnicodeFacts U) :
  (forall spans_page0 : list span,
     spans_page0 <> [] ->
     exists (max_size : Z) (title_spans : list span),
       In max_size (map font_size spans_page0)
       /\ (forall s, In s spans_page0 -> (font_size s <= max_size)%Z)
       /\ Permutation title_spans
            (filter (fun s => Z.eqb (font_size s) max_size) spans_page0)
       /\ StronglySorted
            (fun a b =>
               (y0 (bbox a) < y0 (bbox b))%Q
               \/ ((y0 (bbox a) == y0 (bbox b))%Q
                   /\ (x0 (bbox a) <= x0 (bbox b))%Q))
            title_spans
       /\ fst (extract_title spans_page0) =
          let title_text :=
            strip (join (lit " ") (spec_merge_lines title_spans)) in
          if rejected_title title_text then ([], [])
          else (title_text, title_spans))
  /\ (forall (left1 right1 bottom1 left2 right2 bottom2 : Q)
        (bold1 bold2 : bool),
        fst (fst (extract_title
                    (annual_report left1 right1 bottom1 left2 right2 bottom2
                       bold1 bold2)))
        = lit "Annual Report 2024 Edition").
Proof.
  split.
  - intros spans_page0 Hne.
    destruct (sort_by size_desc_then_top spans_page0) as [|first rest] eqn:E;
      [now apply sort_by_nonempty in E|].
    destruct (sorted_head_is_largest _ E) as [Hin Hmax].
    exists (font_size first), (title_candidates (first :: rest)).
    split; [now apply in_map|]. split; [exact Hmax|].
    split; [|split].
    + unfold title_candidates. rewrite sort_by_perm.
      apply Permutation_filter. rewrite <- E. apply sort_by_perm.
    + unfold title_candidates.
      apply StronglySorted_weaken
        with (R := fun a b => top_then_left b a = false);
        [|apply sort_by_sorted;
          [apply top_then_left_asym | apply top_then_left_cotrans]].
      intros a b. unfold top_then_left.
      split_keys; intros; bool_to_prop.
      * right. split; [lra | assumption].
      * left. lra.
    + unfold extract_title. destruct spans_page0 as [|s0 l0]; [congruence|].
      rewrite E, merge_lines_spec. cbv zeta.
      now destruct (rejected_title _).
  - intros left1 right1 bottom1 left2 right2 bottom2 bold1 bold2.
    rewrite extract_title_ascii by reflexivity.
    unfold extract_title, annual_report.
    assert (E1 : sort_by size_desc_then_top
                   (annual_report left1 right1 bottom1 left2 right2 bottom2
                      bold1 bold2)
                 = annual_report left1 right1 bottom1 left2 right2 bottom2
                     bold1 bold2) by (vm_compute; reflexivity).
    unfold annual_report in E1. rewrite E1.
    assert (E2 : title_candidates
                   (annual_report left1 right1 bottom1 left2 right2 bottom2
                      bold1 bold2)
                 = annual_report left1 right1 bottom1 left2 right2 bottom2
                     bold1 bold2) by (vm_compute; reflexivity).
    unfold annual_report in E2. rewrite E2.
    unfold merge_lines. cbn [fold_left].
    rewrite merge_step_none, merge_step_some.
    cbn [bbox y0 y1 text].
    destruct (Qltb VERTICAL_TOLERANCE (Qabs (30 - bottom1)));
      vm_compute; reflexivity.
Qed.

Lemma extract_title_spec_witness :
  fst (fst (@extract_title ascii_tables (annual_report 0 90 24 0 80 44 true true)))
  = lit "Annual Report 2024 Edition"
  /\ exists (max_size : Z) (title_spans : list span),
       In max_size (map font_size small_then_large)
       /\ (forall s, In s small_then_large -> (font_size s <= max_size)%Z)
       /\ Permutation title_spans
            (filter (fun s => Z.eqb (font_size s) max_size) small_then_large)
       /\ StronglySorted
            (fun a b =>
               (y0 (bbox a) < y0 (bbox b))%Q
               \/ ((y0 (bbox a) == y0 (bbox b))%Q
                   /\ (x0 (bbox a) <= x0 (bbox b))%Q))
            title_spans
       /\ fst (@extract_title ascii_tables small_then_large) =
          let title_text :=
            @strip ascii_tables
              (join (lit " ") (@spec_merge_lines ascii_tables title_spans)) in
          if @rejected_title ascii_tables title_text then ([], [])
          else (title_text, title_spans).
Proof.
  destruct (@extract_title_spec ascii_tables ascii_tables_facts) as [Hgen Hex].
  split.
  - apply Hex.
  - apply (Hgen small_then_large). unfold small_then_large. discriminate.
Defined.

(** ** Text on tables *)

Lemma dict_set_In (V : Type) (d : dict V) (k k' : nat) (v v' : V) :
  In (k', v') (dict_set d k v) -> (k' = k /\ v' = v) \/ In (k', v') d.
Proof.
  induction d as [|[k0 v0] d IH]; simpl.
  - intros [[= <- <-]|[]]. now left.
  - destruct (Nat.eqb_spec k0 k) as [->|Hk]; simpl.
    + intros [[= <- <-]|H]; [now left | right; now right].
    + intros [H|H]; [right; now left|].
      destruct (IH H) as [?|?]; [now left | right; now right].
Qed.

Lemma dict_get_In (V : Type) (d : dict V) (k : nat) (v : V) :
  dict_get d k = Some v -> In (k, v) d.
Proof.
  induction d as [|[k0 v0] d IH]; simpl; [discriminate|].
  destruct (Nat.eqb_spec k0 k) as [->|Hk].
  - intros [= ->]. now left.
  - intros H. right. now apply IH.
Qed.

Lemma concat_values_In (A : Type) (d : dict (list A)) (x : A) :
  In x (List.concat (values d)) <-> exists k l, In (k, l) d /\ In x l.
Proof.
  unfold values. rewrite in_concat. split.
  - intros (l & Hl & Hx). apply in_map_iff in Hl.
    destruct Hl as ([k l'] & <- & Hin). now exists k, l'.
  - intros (k & l & Hin & Hx). exists l. split; [|exact Hx].
    apply in_map_iff. now exists (k, l).
Qed.

Lemma fold_left_invariant (A B : Type) (I : A -> Prop) (f : A -> B -> A)
  (xs : list B) (a : A) :
  (forall a x, In x xs -> I a -> I (f a x)) -> I a -> I (fold_left f xs a).
Proof.
  revert a. induction xs as [|x xs IH]; intros a Hf Ha; simpl; [exact Ha|].
  apply IH.
  - intros a' x' Hx'. apply Hf. now right.
  - apply Hf; [now left | exact Ha].
Qed.

Lemma combine_seq_nth (A : Type) (l : list A) (a p : nat) (x : A) :
  In (p, x) (combine (seq a (List.length l)) l) ->
  (a <= p)%nat /\ nth_error l (p - a) = Some x.
Proof.
  revert a. induction l as [|y l IH]; intros a; simpl; [intros []|].
  intros [[= <- <-]|H].
  - rewrite Nat.sub_diag. split; [lia | reflexivity].
  - destruct (IH _ H) as [Hle Hn]. split; [lia|].
    replace (p - a)%nat with (S (p - S a)) by lia. exact Hn.
Qed.

Section Tables.
Context {U : Unicode} {F : Fitz}.

Lemma add_span_outside (doc : document) (page_num : nat) (pg : raw_page)
  (d : dict (list span)) (rs : raw_span) :
  nth_error doc page_num = Some pg ->
  all_outside_tables doc d ->
  all_outside_tables doc (add_span (table_bboxes pg) page_num d rs).
Proof.
  intros Hpg Hd. unfold add_span.
  destruct (negb (is_valid_heading (normalize_text (raw_text rs))));
    [exact Hd|].
  destruct (existsb _ (table_bboxes pg)) eqn:E; [exact Hd|].
  set (new := {| text := normalize_text (raw_text rs);
                 font_size := round1 (raw_size rs);
                 is_bold := negb (Z.eqb (Z.land (raw_flags rs) 2) 0);
                 bbox := raw_bbox rs;
                 page := page_num |}).
  assert (Hnew : outside_tables doc page_num new).
  { split; [reflexivity|]. exists pg. split; [exact Hpg|].
    intros tb Htb. simpl.
    destruct (intersects (raw_bbox rs) tb) eqn:Ei; [|reflexivity].
    rewrite <- E. symmetry. apply existsb_exists. now exists tb. }
  unfold defaultdict_append.
  destruct (dict_get d page_num) as [l0|] eqn:G; intros k l s Hin Hs;
    apply dict_set_In in Hin; destruct Hin as [[-> ->]|Hin];
    try (now apply (Hd k l s)).
  - apply in_app_or in Hs. destruct Hs as [Hs|[<-|[]]]; [|exact Hnew].
    apply (Hd page_num l0 s); [now apply dict_get_In | exact Hs].
  - destruct Hs as [<-|[]]. exact Hnew.
Qed.

Lemma add_page_outside (doc : document) (page_num : nat) (pg : raw_page)
  (d : dict (list span)) :
  nth_error doc page_num = Some pg ->
  all_outside_tables doc d ->
  all_outside_tables doc (add_page d (page_num, pg)).
Proof.
  intros Hpg. unfold add_page. simpl.
  apply fold_left_invariant. intros d1 b _ Hd1. unfold add_block.
  destruct (lines b) as [ls|]; [|exact Hd1].
  assert (Hls : all_outside_tables doc
                  (fold_left (add_line (table_bboxes pg) page_num) ls d1)).
  { revert Hd1. apply fold_left_invariant. intros d2 ln _ Hd2.
    unfold add_line. revert Hd2. apply fold_left_invariant.
    intros d3 rs _. now apply add_span_outside. }
  destruct (block_type b) as [[|[| |]|]|]; exact Hls || exact Hd1.
Qed.

(** Every collected span lies outside the buffered tables of its page. *)
Lemma extract_spans_outside (doc : document) :
  all_outside_tables doc (extract_spans doc).
Proof.
  unfold extract_spans. apply fold_left_invariant.
  - intros d [p pg] Hin Hd. apply combine_seq_nth in Hin.
    destruct Hin as [_ Hn]. rewrite Nat.sub_0_r in Hn.
    now apply add_page_outside.
  - intros k l s [].
Qed.
End Tables.

Lemma extract_title_spans_In {U : Unicode} (spans_page0 : list span) (s : span) :
  In s (snd (fst (extract_title spans_page0))) -> In s spans_page0.
Proof.
  unfold extract_title. destruct spans_page0 as [|s0 l0]; [intros []|].
  destruct (rejected_title _); cbn [fst snd]; [intros []|].
  intros H. apply title_candidates_In in H. now apply sort_by_In in H.
Qed.

Lemma page0_of_In (d : dict (list span)) (s : span) :
  In s (page0_of d) -> exists l, In (0%nat, l) d /\ In s l.
Proof.
  unfold page0_of. destruct (dict_get d 0) as [l|] eqn:G; [|intros []].
  intros H. exists l. split; [now apply dict_get_In | exact H].
Qed.

(** The dict that [assign_heading_levels] gets holds the collected spans. *)
Lemma after_title_In {U : Unicode} (d : dict (list span)) (k : nat)
  (l : list span) (s : span) :
  In (k, l) (after_title d (snd (extract_title (page0_of d)))) -> In s l ->
  exists l', In (k, l') d /\ In s l'.
Proof.
  unfold after_title. rewrite extract_title_after. unfold page0_of.
  destruct (dict_get d 0) as [l0|] eqn:G.
  - intros Hin Hs. apply dict_set_In in Hin. destruct Hin as [[-> ->]|Hin].
    + exists l0. split; [now apply dict_get_In | now apply sort_by_In in Hs].
    + now exists l.
  - intros Hin Hs. now exists l.
Qed.

(** C7: when a box intersects the buffered box of a table of a page (the
    table box pushed out by 10 on every edge), no span collected for that
    page has this box, whatever its font size; so a fragment of the page with
    such a box is not collected, is not among the spans of the title, and
    every heading of that page in the outline comes from a collected span
    with another box. *)
Theorem table_text_is_excluded {U : Unicode} {F : Fitz}
  (doc : document) (page_num : nat) (pg : raw_page)
  (t : table) (tb : rect) (fragment : raw_span) :
  nth_error doc page_num = Some pg ->
  In t (tables pg) -> table_bbox t = Some tb ->
  intersects (raw_bbox fragment)
    (Rect (x0 tb - 10) (y0 tb - 10) (x1 tb + 10) (y1 tb + 10)) = true ->
  (forall l s, In (page_num, l) (extract_spans doc) -> In s l ->
     bbox s <> raw_bbox fragment)
  /\ (page_num = 0%nat ->
      forall s,
        In s (snd (fst (extract_title (page0_of (extract_spans doc))))) ->
        bbox s <> raw_bbox fragment)
  /\ (forall h, In h (headings (extract_outline_from_pdf doc)) ->
        Heading.page h = page_num ->
        exists l s, In (page_num, l) (extract_spans doc) /\ In s l
          /\ text s = Heading.text h /\ bbox s <> raw_bbox fragment).
Proof.
  intros Hpg Ht Htb Hi.
  assert (Hbuf : In (buffered tb) (table_bboxes pg)).
  { unfold table_bboxes. apply in_flat_map. exists t. split; [exact Ht|].
    rewrite Htb. now left. }
  assert (Hout : forall l s, In (page_num, l) (extract_spans doc) -> In s l ->
                   bbox s <> raw_bbox fragment).
  { intros l s Hl Hs E.
    destruct (extract_spans_outside doc _ _ _ Hl Hs) as (_ & pg' & Hpg' & Hno).
    rewrite Hpg in Hpg'. injection Hpg' as <-.
    specialize (Hno _ Hbuf). rewrite E in Hno.
    unfold buffered, BUFFER_SIZE in Hno. congruence. }
  split; [exact Hout|]. split.
  - intros -> s Hs. apply extract_title_spans_In in Hs.
    apply page0_of_In in Hs. destruct Hs as (l & Hl & Hs). now apply (Hout l).
  - intros h Hh Hp. unfold extract_outline_from_pdf, build_outline in Hh.
    pose proof (@after_title_In U (extract_spans doc)) as Hafter.
    destruct (extract_title (page0_of (extract_spans doc)))
      as [[title_text title_lines] page0_after]. simpl in Hh, Hafter.
    apply assign_heading_levels_sound in Hh.
    destruct Hh as (_ & _ & s & Hs & Htext & Hpage).
    apply concat_values_In in Hs. destruct Hs as (k & l & Hl & Hs).
    destruct (Hafter k l s Hl Hs) as (l' & Hl' & Hs').
    pose proof (proj1 (extract_spans_outside doc _ _ _ Hl' Hs')) as Hk.
    assert (Ek : k = page_num) by congruence. rewrite Ek in Hl'.
    exists l', s. split; [exact Hl'|]. split; [exact Hs'|].
    split; [exact Htext|]. now apply (Hout l').
Qed.

(** ** The theorems at concrete inputs *)

Lemma outline_headings_valid_not_title_witness :
  @is_valid_heading ascii_tables (lit "Section A") = true
  /\ ~ In (lit "Section A")
        (map text
           (snd (fst (@extract_title ascii_tables
                        (page0_of (one_page (box 10 40) (box 60 80) (box 90 102))))))).
Proof.
  apply (@outline_headings_valid_not_title ascii_tables
           (one_page (box 10 40) (box 60 80) (box 90 102))
           (Heading.Make H1 (lit "Section A") 0)).
  vm_compute. left. reflexivity.
Defined.

Lemma single_size_not_bold_gives_nothing_witness :
  @assign_heading_levels ascii_tables plain_page [] = [].
Proof.
  apply (@single_size_not_bold_gives_nothing ascii_tables plain_page []).
  - intros s s' Hs Hs'. simpl in Hs, Hs'.
    destruct Hs as [<-|[<-|[]]]; destruct Hs' as [<-|[<-|[]]]; reflexivity.
  - intros s Hs. simpl in Hs.
    destruct Hs as [<-|[<-|[]]]; (vm_compute; split; [discriminate | reflexivity]).
  - intros s Hs. simpl in Hs. destruct Hs as [<-|[<-|[]]]; reflexivity.
Defined.

Lemma level_assignment_witness :
  level_of
    (thresholds
       (sorted_sizes
          (filtered_spans (one_page (box 10 40) (box 60 80) (box 90 102))
             [Span (lit "Title Text") (pt 30) true (box 10 40) 0])))
    (Span (lit "sub note") (pt 12) false (box 90 102) 0) = Some H2
  <-> pt 12
      = snd (fst (thresholds
                    (sorted_sizes
                       (filtered_spans
                          (one_page (box 10 40) (box 60 80) (box 90 102))
                          [Span (lit "Title Text") (pt 30) true
                             (box 10 40) 0])))).
Proof.
  refine (proj1 (proj2 (proj1
    (@level_assignment ascii_tables
       (one_page (box 10 40) (box 60 80) (box 90 102))
       [Span (lit "Title Text") (pt 30) true (box 10 40) 0] _)
    (Span (lit "sub note") (pt 12) false (box 90 102) 0)))).
  intros s Hs. vm_compute in Hs.
  destruct Hs as [<-|[<-|[]]]; (vm_compute; split; [discriminate | reflexivity]).
Defined.

Lemma table_text_is_excluded_witness :
  overlap cell_rect (Rect (50 - 10) (200 - 10) (400 + 10) (300 + 10)) = true
  /\ forall l s,
       In (0%nat, l) (@extract_spans ascii_tables overlap_fitz page_with_table) ->
       In s l -> bbox s <> cell_rect.
Proof.
  split; [vm_compute; reflexivity|].
  refine (proj1 (@table_text_is_excluded ascii_tables overlap_fitz
                   page_with_table 0%nat _ (Table (Some table_rect)) table_rect
                   (RawSpan (lit "Total") 24 16 cell_rect) _ _ _ _)).
  - reflexivity.
  - left. reflexivity.
  - reflexivity.
  - vm_compute. reflexivity.
Defined.

(** ** Examples of section 8 of the specification *)

Example validator_examples :
  map (@is_valid_heading ascii_tables)
    [ lit ""; lit "..."; lit "Page 3"; lit "May 4, 2024"; lit "3:15 PM";
      lit "04/05/2024"; lit "x"; lit "Introduction" ]
  = [ false; false; false; false; false; false; false; true ].
Proof. vm_compute. reflexivity. Qed.

Example two_methods_collapse :
  remove_duplicates
    [ Heading.Make H2 (lit "Methods") 3; Heading.Make H2 (lit "Methods") 3 ]
  = [ Heading.Make H2 (lit "Methods") 3 ].
Proof. vm_compute. reflexivity. Qed.

Example pages_then_levels :
  sort_by Heading.key_lt
    [ Heading.Make H1 (lit "c") 2; Heading.Make H2 (lit "b") 1;
      Heading.Make H1 (lit "a") 1 ]
  = [ Heading.Make H1 (lit "a") 1; Heading.Make H2 (lit "b") 1;
      Heading.Make H1 (lit "c") 2 ].
Proof. vm_compute. reflexivity. Qed.

(** Sizes 24 (bold), 18, 14, 18, 24 (not bold) on one page: the bold 24 is
    H1, the 18s are H2, the 14 is H3, the plain 24 gets no level. *)
Example five_spans :
  map (level_of (thresholds [pt 24; pt 18; pt 14]))
    [ Span (lit "a") (pt 24) true (box 0 1) 0;
      Span (lit "b") (pt 18) false (box 0 1) 0;
      Span (lit "c") (pt 14) false (box 0 1) 0;
      Span (lit "d") (pt 18) false (box 0 1) 0;
      Span (lit "e") (pt 24) false (box 0 1) 0 ]
  = [ Some H1; Some H2; Some H3; Some H2; None ].
Proof. vm_compute. reflexivity. Qed.

(* ================================================================== *)
(** * Further properties of the program *)

(** ** [strip] and [normalize_text] *)

Lemma lstrip_split {U : Unicode} (s : str) :
  exists pre, s = pre ++ lstrip s /\ forallb isspace pre = true.
Proof.
  induction s as [|c s (pre & E & Hpre)]; [now exists []|].
  simpl. destruct (isspace c) eqn:Ec.
  - exists (c :: pre). simpl. rewrite Ec, Hpre. split; [now f_equal | reflexivity].
  - now exists [].
Qed.

Lemma lstrip_head {U : Unicode} (s : str) (c : char) (rest : str) :
  lstrip s = c :: rest -> isspace c = false.
Proof.
  induction s as [|x s IH]; simpl; [discriminate|].
  destruct (isspace x) eqn:Ex; [exact IH|]. intros [= <- _]. exact Ex.
Qed.

Lemma lstrip_fixed {U : Unicode} (s : str) :
  match s with [] => True | c :: _ => isspace c = false end -> lstrip s = s.
Proof. destruct s as [|c s]; simpl; [reflexivity|]. now intros ->. Qed.

Lemma lstrip_idem {U : Unicode} (s : str) : lstrip (lstrip s) = lstrip s.
Proof.
  apply lstrip_fixed. destruct (lstrip s) as [|c rest] eqn:E; [exact I|].
  now apply lstrip_head in E.
Qed.

Lemma rstrip_split {U : Unicode} (s : str) :
  exists post, s = rstrip s ++ post /\ forallb isspace post = true.
Proof.
  unfold rstrip. destruct (lstrip_split (rev s)) as (pre & E & Hpre).
  exists (rev pre). split; [|now rewrite forallb_rev].
  rewrite <- rev_app_distr, <- E. symmetry. apply rev_involutive.
Qed.

Lemma rstrip_last {U : Unicode} (s : str) (c : char) (front : str) :
  rstrip s = front ++ [c] -> isspace c = false.
Proof.
  unfold rstrip. intros E. apply (f_equal (@rev char)) in E.
  rewrite rev_involutive, rev_app_distr in E. simpl in E.
  now apply lstrip_head in E.
Qed.

(** The first character of [rstrip s], when there is one, is the first of [s]. *)
Lemma rstrip_head {U : Unicode} (s : str) (c : char) (rest : str) :
  rstrip s = c :: rest -> exists rest', s = c :: rest'.
Proof.
  intros E. destruct (rstrip_split s) as (post & Es & _).
  rewrite E in Es. simpl in Es. now exists (rest ++ post).
Qed.

Lemma strip_head {U : Unicode} (s : str) (c : char) (rest : str) :
  strip s = c :: rest -> isspace c = false.
Proof.
  intros E. unfold strip in E.
  destruct (rstrip_head _ E) as (rest' & E'). now apply lstrip_head in E'.
Qed.

Lemma strip_last {U : Unicode} (s : str) (c : char) (front : str) :
  strip s = front ++ [c] -> isspace c = false.
Proof. unfold strip. apply rstrip_last. Qed.

Lemma strip_idem {U : Unicode} (s : str) : strip (strip s) = strip s.
Proof.
  unfold strip at 1. rewrite (lstrip_fixed (strip s)).
  - unfold strip, rstrip. rewrite rev_involutive, lstrip_idem. reflexivity.
  - destruct (strip s) as [|c rest] eqn:E; [exact I|]. now apply (strip_head s E).
Qed.

(** X1: [strip] takes white space off both ends and nothing else: the text
    is the stripped text between two runs of white space, the stripped text
    neither starts nor ends with white space, and stripping it again changes
    nothing. *)
Theorem strip_spec {U : Unicode} (s : str) :
  (exists pre post,
     s = pre ++ strip s ++ post
     /\ forallb isspace pre = true /\ forallb isspace post = true)
  /\ (forall c rest, strip s = c :: rest -> isspace c = false)
  /\ (forall c front, strip s = front ++ [c] -> isspace c = false)
  /\ strip (strip s) = strip s.
Proof.
  split; [|split; [apply strip_head | split; [apply strip_last | apply strip_idem]]].
  destruct (lstrip_split s) as (pre & E1 & Hpre).
  destruct (rstrip_split (lstrip s)) as (post & E2 & Hpost).
  exists pre, post. fold (strip s) in E2. rewrite <- E2. auto.
Qed.

(** X2: on ASCII text [normalize_text] is [strip], and normalizing twice is
    normalizing once. *)
Theorem normalize_text_idempotent {U : Unicode} (HU : UnicodeFacts U) (s : str) :
  all_ascii s = true ->
  normalize_text s = strip s
  /\ normalize_text (normalize_text s) = normalize_text s.
Proof.
  intros H.
  assert (E : forall t, all_ascii t = true -> normalize_text t = strip t).
  { intros t Ht. unfold normalize_text. apply nfc_ascii. now apply strip_forallb. }
  split; [now apply E|].
  rewrite (E s H), (E (strip s)) by now apply strip_forallb.
  apply strip_idem.
Qed.

Lemma normalize_text_idempotent_witness :
  @normalize_text ascii_tables (@normalize_text ascii_tables (lit "  Scope of work "))
  = @normalize_text ascii_tables (lit "  Scope of work ").
Proof.
  apply (@normalize_text_idempotent ascii_tables ascii_tables_facts
           (lit "  Scope of work ")).
  reflexivity.
Defined.

(** ** The validator *)

Lemma forallb_false_exists (A : Type) (p : A -> bool) (l : list A) :
  forallb p l = false -> exists x, In x l /\ p x = false.
Proof.
  induction l as [|x l IH]; simpl; [discriminate|].
  destruct (p x) eqn:E; simpl.
  - intros H. destruct (IH H) as (y & Hy & Hp). exists y. auto.
  - intros _. exists x. auto.
Qed.

(** X3: a text that [is_valid_heading] accepts has, once normalized, between
    2 and 120 characters, and at least one of them is not a filler
    character. *)
Theorem valid_heading_length {U : Unicode} (s : str) :
  is_valid_heading s = true ->
  (MIN_HEADING_LEN <= len (normalize_text s) <= MAX_HEADING_CHARS)%nat
  /\ exists c, In c (normalize_text s) /\ char_in c filler_chars = false.
Proof.
  unfold is_valid_heading.
  destruct (negb (nonempty (normalize_text s))
            || (len (normalize_text s) <? MIN_HEADING_LEN)%nat) eqn:E1;
    [discriminate|].
  destruct (forallb _ (normalize_text s)) eqn:E2; [discriminate|].
  destruct (Re.match_anchored re_page_date_version _); [discriminate|].
  destruct (MAX_HEADING_CHARS <? len (normalize_text s))%nat eqn:E3;
    [discriminate|].
  intros _. apply orb_false_iff in E1. destruct E1 as [_ E1].
  apply Nat.ltb_ge in E1. apply Nat.ltb_ge in E3. split; [lia|].
  destruct (forallb_false_exists _ _ E2) as (c & Hc & Hn). now exists c.
Qed.

Lemma valid_heading_length_witness :
  (MIN_HEADING_LEN <= len (@normalize_text ascii_tables (lit "Introduction"))
   <= MAX_HEADING_CHARS)%nat
  /\ exists c, In c (@normalize_text ascii_tables (lit "Introduction"))
       /\ char_in c filler_chars = false.
Proof.
  apply (@valid_heading_length ascii_tables (lit "Introduction")).
  vm_compute. reflexivity.
Defined.

(** ** The matcher and the words of a pattern *)

Lemma nullable_lang (r : Re.regex) : Re.nullable r = true <-> re_lang r [].
Proof.
  induction r as [| |p|a IHa b IHb|a IHa b IHb|a IHa]; simpl.
  - split; [discriminate | inversion 1].
  - split; [constructor | reflexivity].
  - split; [discriminate | inversion 1].
  - rewrite andb_true_iff, IHa, IHb. split.
    + intros [Ha Hb]. change (@nil char) with (@nil char ++ []). now constructor.
    + intros H. remember (Re.Seq a b) as r eqn:Er.
      remember (@nil char) as w eqn:Ew.
      destruct H as [| |a' b' s1 s2 H1 H2| | | |]; try discriminate.
      injection Er as -> ->.
      apply app_eq_nil in Ew. destruct Ew; subst. auto.
  - rewrite orb_true_iff, IHa, IHb. split.
    + intros [H|H]; [now apply lang_Alt_l | now apply lang_Alt_r].
    + inversion 1; subst; auto.
  - split; [constructor | reflexivity].
Qed.

Lemma star_cons_inv (r : Re.regex) (w : str) :
  re_lang r w ->
  forall a c s, r = Re.Star a -> w = c :: s ->
  exists s1 s2, s = s1 ++ s2 /\ re_lang a (c :: s1) /\ re_lang (Re.Star a) s2.
Proof.
  induction 1 as [| | | | | |a' s1 s2 H1 _ H2 IH2]; intros a0 c0 s0 Er Ew;
    try discriminate.
  injection Er as ->. destruct s1 as [|c1 s1].
  - simpl in Ew. now apply IH2.
  - simpl in Ew. injection Ew as -> <-. now exists s1, s2.
Qed.

Lemma deriv_lang (r : Re.regex) (c : char) (s : str) :
  re_lang (Re.deriv c r) s <-> re_lang r (c :: s).
Proof.
  revert s. induction r as [| |p|a IHa b IHb|a IHa b IHb|a IHa]; intros s; simpl.
  - split; inversion 1.
  - split; inversion 1.
  - destruct (p c) eqn:E; split; inversion 1; subst.
    + now constructor.
    + constructor.
    + congruence.
  - assert (Hseq : re_lang (Re.Seq (Re.deriv c a) b) s ->
                   re_lang (Re.Seq a b) (c :: s)).
    { inversion 1 as [| |? ? s1 s2 H1 H2| | | |]; subst.
      apply IHa in H1. change (c :: s1 ++ s2) with ((c :: s1) ++ s2).
      now constructor. }
    assert (Hinv : re_lang (Re.Seq a b) (c :: s) ->
              (re_lang a [] /\ re_lang (Re.deriv c b) s)
              \/ re_lang (Re.Seq (Re.deriv c a) b) s).
    { intros H. remember (Re.Seq a b) as r eqn:Er. remember (c :: s) as w eqn:Ew.
      destruct H as [| |a' b' s1 s2 H1 H2| | | |]; try discriminate.
      injection Er as -> ->.
      destruct s1 as [|c1 s1]; simpl in Ew.
      - subst s2. left. split; [exact H1 | now apply IHb].
      - injection Ew as -> <-. right. constructor; [now apply IHa | exact H2]. }
    destruct (Re.nullable a) eqn:N; split.
    + inversion 1; subst; [now apply Hseq|].
      change (c :: s) with ([] ++ c :: s). constructor;
        [now apply nullable_lang | now apply IHb].
    + intros H. destruct (Hinv H) as [[_ Hb]|Hs];
        [now apply lang_Alt_r | now apply lang_Alt_l].
    + exact Hseq.
    + intros H. destruct (Hinv H) as [[Ha _]|Hs]; [|exact Hs].
      apply nullable_lang in Ha. congruence.
  - split.
    + inversion 1; subst; [apply lang_Alt_l; now apply IHa
                          | apply lang_Alt_r; now apply IHb].
    + inversion 1; subst; [apply lang_Alt_l; now apply IHa
                          | apply lang_Alt_r; now apply IHb].
  - split.
    + inversion 1 as [| |? ? s1 s2 H1 H2| | | |]; subst.
      apply IHa in H1. change (c :: s1 ++ s2) with ((c :: s1) ++ s2).
      now constructor.
    + intros H. destruct (star_cons_inv H eq_refl eq_refl)
        as (s1 & s2 & -> & H1 & H2).
      constructor; [now apply IHa | exact H2].
Qed.

(** The matcher accepts exactly the words of the expression. *)
Lemma fullmatch_lang (r : Re.regex) (s : str) :
  Re.fullmatch r s = true <-> re_lang r s.
Proof.
  revert r. induction s as [|c s IH]; intros r; simpl.
  - apply nullable_lang.
  - rewrite IH. apply deriv_lang.
Qed.

Lemma match_anchored_lang (r : Re.regex) (s : str) :
  re_lang r s -> Re.match_anchored r s = true.
Proof.
  intros H. unfold Re.match_anchored. apply fullmatch_lang.
  rewrite <- (app_nil_r s). constructor; [exact H|].
  apply lang_Alt_r. constructor.
Qed.

Lemma lang_Star_cls (p : char -> bool) (s : str) :
  forallb p s = true -> re_lang (Re.Star (Re.Cls p)) s.
Proof.
  induction s as [|c s IH]; simpl; [constructor|].
  intros H. apply andb_true_iff in H. destruct H as [Hc Hs].
  change (c :: s) with ([c] ++ s). constructor; [now constructor | now apply IH].
Qed.

Lemma lang_Plus_cls (p : char -> bool) (s : str) :
  s <> [] -> forallb p s = true -> re_lang (Re.Plus (Re.Cls p)) s.
Proof.
  destruct s as [|c s]; [congruence|]. intros _ H. simpl in H.
  apply andb_true_iff in H. destruct H as [Hc Hs].
  change (c :: s) with ([c] ++ s). constructor;
    [now constructor | now apply lang_Star_cls].
Qed.

Lemma lang_Rep_cls (p : char -> bool) (n : nat) (s : str) :
  List.length s = n -> forallb p s = true -> re_lang (Re.Rep n (Re.Cls p)) s.
Proof.
  revert s. induction n as [|n IH]; intros [|c s] Hl H; simpl in *;
    try discriminate; [constructor|].
  apply andb_true_iff in H. destruct H as [Hc Hs].
  change (c :: s) with ([c] ++ s). constructor; [now constructor|].
  apply IH; [congruence | exact Hs].
Qed.

Lemma lang_Rep12_cls (p : char -> bool) (s : str) :
  (1 <= List.length s <= 2)%nat -> forallb p s = true ->
  re_lang (Re.Rep12 (Re.Cls p)) s.
Proof.
  destruct s as [|a [|b [|c s]]]; simpl; intros Hl H; try lia.
  - rewrite andb_true_r in H. change [a] with ([a] ++ []).
    constructor; [now constructor | apply lang_Alt_r; constructor].
  - apply andb_true_iff in H. destruct H as [Ha H].
    rewrite andb_true_r in H. change [a; b] with ([a] ++ [b]).
    constructor; [now constructor | apply lang_Alt_l; now constructor].
Qed.

Lemma lang_Chr (c : char) : re_lang (Re.Chr c) [c].
Proof. constructor. apply N.eqb_refl. Qed.

(** A word of the pattern in any mix of upper and lower case. *)
Lemma lang_Word_ci (pat w : str) :
  map ascii_lower w = map ascii_lower pat ->
  re_lang (Re.Word (@ci ascii_tables) pat) w.
Proof.
  revert w. induction pat as [|p pat IH]; intros [|c w] E; simpl in *;
    try discriminate; [constructor|].
  injection E as Ec Ew. change (c :: w) with ([c] ++ w).
  constructor; [|now apply IH].
  constructor. simpl. rewrite Ec. apply N.eqb_refl.
Qed.

(** ** Page numbers, dates and times *)

Lemma valid_heading_no_match {U : Unicode} (s : str) :
  is_valid_heading s = true ->
  Re.match_anchored re_page_date_version (strip (normalize_text s)) = false
  /\ Re.match_anchored re_clock (normalize_text s) = false
  /\ Re.match_anchored re_slash_date (normalize_text s) = false.
Proof.
  unfold is_valid_heading.
  destruct (negb (nonempty (normalize_text s)) || _); [discriminate|].
  destruct (forallb _ (normalize_text s)); [discriminate|].
  destruct (Re.match_anchored re_page_date_version _); [discriminate|].
  destruct (MAX_HEADING_CHARS <? len (normalize_text s))%nat; [discriminate|].
  destruct (Re.match_anchored re_clock _); [discriminate|].
  destruct (Re.match_anchored re_slash_date _); [discriminate|].
  auto.
Qed.

Lemma strip_fixed {U : Unicode} (s : str) :
  (forall c rest, s = c :: rest -> isspace c = false) ->
  (forall c front, s = front ++ [c] -> isspace c = false) ->
  strip s = s.
Proof.
  intros Hh Hl. unfold strip. rewrite (lstrip_fixed s).
  - unfold rstrip. rewrite lstrip_fixed; [apply rev_involutive|].
    destruct (rev s) as [|c r] eqn:E; [exact I|].
    apply (Hl c (rev r)). rewrite <- (rev_involutive s), E. reflexivity.
  - destruct s as [|c rest]; [exact I|]. now apply (Hh c rest).
Qed.

Lemma forallb_impl (A : Type) (p q : A -> bool) (l : list A) :
  (forall x, p x = true -> q x = true) ->
  forallb p l = true -> forallb q l = true.
Proof.
  intros Hpq. rewrite !forallb_forall. auto.
Qed.

Lemma solid_digit (c : char) : ascii_isdigit c = true -> solid c = true.
Proof.
  unfold ascii_isdigit, solid, is_ascii, ascii_isspace. intros H.
  apply andb_true_iff in H. destruct H as [H1 H2].
  apply N.leb_le in H1. apply N.leb_le in H2.
  apply andb_true_iff. split; [apply N.ltb_lt; lia|].
  apply negb_true_iff, orb_false_iff.
  split; apply andb_false_iff; right; apply N.leb_gt; lia.
Qed.

Lemma space_is_ascii (c : char) : ascii_isspace c = true -> is_ascii c = true.
Proof.
  unfold ascii_isspace, is_ascii. intros H. apply N.ltb_lt.
  apply orb_true_iff in H.
  destruct H as [H|H]; apply andb_true_iff in H; destruct H as [_ H];
    apply N.leb_le in H; lia.
Qed.

Lemma solid_lower (c y : char) :
  ascii_lower c = y -> solid y = true -> solid c = true.
Proof.
  unfold ascii_lower. destruct (ascii_isupper c) eqn:E; [|now intros ->].
  intros _ _. unfold ascii_isupper in E. apply andb_true_iff in E.
  destruct E as [H1 H2]. apply N.leb_le in H1. apply N.leb_le in H2.
  unfold solid, is_ascii, ascii_isspace.
  apply andb_true_iff. split; [apply N.ltb_lt; lia|].
  apply negb_true_iff, orb_false_iff.
  split; apply andb_false_iff; right; apply N.leb_gt; lia.
Qed.

Lemma solid_word (w pat : str) :
  map ascii_lower w = pat -> forallb solid pat = true -> forallb solid w = true.
Proof.
  revert pat. induction w as [|c w IH]; intros [|p pat] E H; simpl in *;
    try discriminate; [reflexivity|].
  injection E as Ec Ew. apply andb_true_iff in H. destruct H as [Hp Hpat].
  rewrite (@solid_lower _ _ Ec Hp). simpl. now apply (IH pat).
Qed.

Lemma solid_all_ascii (s : str) : forallb solid s = true -> all_ascii s = true.
Proof.
  apply forallb_impl. intros c H. unfold solid in H.
  now apply andb_true_iff in H.
Qed.

Lemma head_in_first (a rest : str) (c : char) (r : str) :
  a <> [] -> a ++ rest = c :: r -> In c a.
Proof. destruct a as [|x a]; [congruence|]. intros _ [= -> _]. now left. Qed.

Lemma last_in_last (front0 z front : str) (c : char) :
  z <> [] -> front0 ++ z = front ++ [c] -> In c z.
Proof.
  intros Hz E. destruct (exists_last Hz) as (z' & l & ->).
  rewrite app_assoc in E. apply app_inj_tail in E. destruct E as [_ ->].
  apply in_or_app. right. now left.
Qed.

(** A text of ASCII characters that starts and ends with a character that is
    no white space, and that is a word of one of the three patterns, is
    rejected. *)
Lemma rejected_by_pattern {U : Unicode} (HU : UnicodeFacts U) (t : str) :
  all_ascii t = true ->
  (forall c rest, t = c :: rest -> ascii_isspace c = false) ->
  (forall c front, t = front ++ [c] -> ascii_isspace c = false) ->
  re_lang (@re_page_date_version ascii_tables) t
  \/ re_lang (@re_clock ascii_tables) t
  \/ re_lang (@re_slash_date ascii_tables) t ->
  is_valid_heading t = false.
Proof.
  intros Ha Hh Hl Hlang. rewrite (is_valid_heading_ascii t Ha).
  destruct (@is_valid_heading ascii_tables t) eqn:V; [|reflexivity].
  apply valid_heading_no_match in V.
  assert (Es : @strip ascii_tables t = t) by (apply strip_fixed; assumption).
  assert (En : @normalize_text ascii_tables t = t) by exact Es.
  rewrite En, Es in V. destruct V as (V1 & V2 & V3).
  destruct Hlang as [H|[H|H]]; apply match_anchored_lang in H; congruence.
Qed.

Lemma solid_not_space (s : str) (c : char) :
  forallb solid s = true -> In c s -> ascii_isspace c = false.
Proof.
  intros H Hc. rewrite forallb_forall in H. specialize (H c Hc).
  unfold solid in H. apply andb_true_iff in H. now apply negb_true_iff.
Qed.

(** X4: "Page", in any mix of upper and lower case, followed by white space
    and digits, is no heading. *)
Theorem page_numbers_are_rejected {U : Unicode} (HU : UnicodeFacts U)
  (word gap digits : str) :
  map ascii_lower word = lit "page" ->
  gap <> [] -> forallb ascii_isspace gap = true ->
  digits <> [] -> forallb ascii_isdigit digits = true ->
  is_valid_heading (word ++ gap ++ digits) = false.
Proof.
  intros Hw Hg Hgs Hd Hds.
  assert (Sw : forallb solid word = true) by (now apply (@solid_word _ _ Hw)).
  assert (Sd : forallb solid digits = true)
    by (revert Hds; apply forallb_impl, solid_digit).
  assert (Nw : word <> []) by (intros ->; discriminate).
  apply (rejected_by_pattern HU).
  - rewrite !all_ascii_app.
    rewrite (@solid_all_ascii _ Sw), (@solid_all_ascii _ Sd).
    unfold all_ascii at 1. now rewrite (@forallb_impl _ _ _ _ space_is_ascii Hgs).
  - intros c rest E. apply (@solid_not_space _ _ Sw). now apply (@head_in_first _ _ _ _ Nw E).
  - intros c front E. apply (@solid_not_space _ _ Sd).
    rewrite app_assoc in E. now apply (@last_in_last _ _ _ _ Hd E).
  - left. apply lang_Alt_l. constructor; [now apply lang_Word_ci|].
    constructor; now apply lang_Plus_cls.
Qed.

Lemma page_numbers_are_rejected_witness :
  @is_valid_heading ascii_tables (lit "PAGE" ++ lit "  " ++ lit "217") = false.
Proof.
  apply (@page_numbers_are_rejected ascii_tables ascii_tables_facts
           (lit "PAGE") (lit "  ") (lit "217"));
    try reflexivity; discriminate.
Defined.

(** X5: one or two digits, a slash, one or two digits, a slash and four
    digits are no heading. *)
Theorem slash_dates_are_rejected {U : Unicode} (HU : UnicodeFacts U)
  (d m y : str) :
  (1 <= List.length d <= 2)%nat -> (1 <= List.length m <= 2)%nat ->
  List.length y = 4%nat ->
  forallb ascii_isdigit d = true -> forallb ascii_isdigit m = true ->
  forallb ascii_isdigit y = true ->
  is_valid_heading (d ++ lit "/" ++ m ++ lit "/" ++ y) = false.
Proof.
  intros Ld Lm Ly Hd Hm Hy.
  assert (Sd : forallb solid d = true)
    by (revert Hd; apply forallb_impl, solid_digit).
  assert (Sm : forallb solid m = true)
    by (revert Hm; apply forallb_impl, solid_digit).
  assert (Sy : forallb solid y = true)
    by (revert Hy; apply forallb_impl, solid_digit).
  assert (Nd : d <> []) by (intros ->; simpl in Ld; lia).
  assert (Ny : y <> []) by (intros ->; discriminate).
  apply (rejected_by_pattern HU).
  - rewrite !all_ascii_app.
    rewrite (@solid_all_ascii _ Sd), (@solid_all_ascii _ Sm), (@solid_all_ascii _ Sy).
    reflexivity.
  - intros c rest E. apply (@solid_not_space _ _ Sd). now apply (@head_in_first _ _ _ _ Nd E).
  - intros c front E. apply (@solid_not_space _ _ Sy).
    rewrite !app_assoc in E. now apply (@last_in_last _ _ _ _ Ny E).
  - right. right. unfold re_slash_date.
    constructor; [now apply lang_Rep12_cls|].
    constructor; [apply lang_Chr|].
    constructor; [now apply lang_Rep12_cls|].
    constructor; [apply lang_Chr | now apply lang_Rep_cls].
Qed.

Lemma slash_dates_are_rejected_witness :
  @is_valid_heading ascii_tables
    (lit "4" ++ lit "/" ++ lit "11" ++ lit "/" ++ lit "2023") = false.
Proof.
  apply (@slash_dates_are_rejected ascii_tables ascii_tables_facts
           (lit "4") (lit "11") (lit "2023"));
    try reflexivity; simpl; lia.
Defined.

(** X6: one or two digits, a colon, two digits, any white space and "am" or
    "pm" in any mix of upper and lower case are no heading. *)
Theorem clock_times_are_rejected {U : Unicode} (HU : UnicodeFacts U)
  (h mm gap half : str) :
  (1 <= List.length h <= 2)%nat -> List.length mm = 2%nat ->
  forallb ascii_isdigit h = true -> forallb ascii_isdigit mm = true ->
  forallb ascii_isspace gap = true ->
  map ascii_lower half = lit "am" \/ map ascii_lower half = lit "pm" ->
  is_valid_heading (h ++ lit ":" ++ mm ++ gap ++ half) = false.
Proof.
  intros Lh Lm Hh Hm Hg Hhalf.
  assert (Sh : forallb solid h = true)
    by (revert Hh; apply forallb_impl, solid_digit).
  assert (Sm : forallb solid mm = true)
    by (revert Hm; apply forallb_impl, solid_digit).
  assert (Shalf : forallb solid half = true)
    by (destruct Hhalf as [E|E]; now apply (@solid_word _ _ E)).
  assert (Nh : h <> []) by (intros ->; simpl in Lh; lia).
  assert (Nhalf : half <> []) by (intros ->; destruct Hhalf; discriminate).
  apply (rejected_by_pattern HU).
  - rewrite !all_ascii_app.
    rewrite (@solid_all_ascii _ Sh), (@solid_all_ascii _ Sm),
      (@solid_all_ascii _ Shalf).
    unfold all_ascii at 2. now rewrite (@forallb_impl _ _ _ _ space_is_ascii Hg).
  - intros c rest E. apply (@solid_not_space _ _ Sh). now apply (@head_in_first _ _ _ _ Nh E).
  - intros c front E. apply (@solid_not_space _ _ Shalf).
    rewrite !app_assoc in E. now apply (@last_in_last _ _ _ _ Nhalf E).
  - right. left. unfold re_clock.
    constructor; [now apply lang_Rep12_cls|].
    constructor; [apply lang_Chr|].
    constructor; [now apply lang_Rep_cls|].
    constructor; [now apply lang_Star_cls|].
    destruct Hhalf as [E|E].
    + apply lang_Alt_l. now apply lang_Word_ci.
    + apply lang_Alt_r, lang_Alt_l. now apply lang_Word_ci.
Qed.

Lemma clock_times_are_rejected_witness :
  @is_valid_heading ascii_tables
    (lit "9" ++ lit ":" ++ lit "05" ++ lit " " ++ lit "Pm") = false.
Proof.
  apply (@clock_times_are_rejected ascii_tables ascii_tables_facts
           (lit "9") (lit "05") (lit " ") (lit "Pm"));
    try reflexivity; try (simpl; lia).
  right. reflexivity.
Defined.

(** ** Dicts *)

Lemma dict_get_set_same (V : Type) (d : dict V) (k : nat) (v : V) :
  dict_get (dict_set d k v) k = Some v.
Proof.
  induction d as [|[k0 v0] d IH]; simpl.
  - now rewrite Nat.eqb_refl.
  - destruct (Nat.eqb k0 k) eqn:E; simpl; rewrite E; [reflexivity | exact IH].
Qed.

Lemma dict_get_set_other (V : Type) (d : dict V) (k k' : nat) (v : V) :
  k' <> k -> dict_get (dict_set d k v) k' = dict_get d k'.
Proof.
  intros Hk. induction d as [|[k0 v0] d IH]; simpl.
  - destruct (Nat.eqb_spec k k'); [congruence | reflexivity].
  - destruct (Nat.eqb_spec k0 k) as [->|Hk0]; simpl.
    + destruct (Nat.eqb_spec k k'); [congruence | reflexivity].
    + now rewrite IH.
Qed.

Lemma dict_set_keys (V : Type) (d : dict V) (k : nat) (v : V) :
  map fst (dict_set d k v) =
  match dict_get d k with
  | Some _ => map fst d
  | None => map fst d ++ [k]
  end.
Proof.
  induction d as [|[k0 v0] d IH]; simpl; [reflexivity|].
  destruct (Nat.eqb_spec k0 k) as [->|Hk0]; simpl; [reflexivity|].
  rewrite IH. now destruct (dict_get d k).
Qed.

Lemma dict_get_None_keys (V : Type) (d : dict V) (k : nat) :
  dict_get d k = None <-> ~ In k (map fst d).
Proof.
  induction d as [|[k0 v0] d IH]; simpl; [tauto|].
  destruct (Nat.eqb_spec k0 k) as [->|Hk0].
  - split; [discriminate | intros H; exfalso; apply H; now left].
  - rewrite IH. tauto.
Qed.

Lemma dict_set_set (V : Type) (d : dict V) (k : nat) (v v' : V) :
  dict_set (dict_set d k v) k v' = dict_set d k v'.
Proof.
  induction d as [|[k0 v0] d IH]; simpl.
  - now rewrite Nat.eqb_refl.
  - destruct (Nat.eqb k0 k) eqn:E; simpl; rewrite E; [reflexivity | now rewrite IH].
Qed.

Lemma dict_set_new (V : Type) (d : dict V) (k : nat) (v : V) :
  dict_get d k = None -> dict_set d k v = d ++ [(k, v)].
Proof.
  induction d as [|[k0 v0] d IH]; simpl; [reflexivity|].
  destruct (Nat.eqb k0 k); [discriminate|]. intros H. now rewrite IH.
Qed.

(** What is stored is what is read back: after [d[k] = v] the key [k]
    holds [v], the other keys hold what they held, the keys keep their order
    (a new key goes last) and stay without repetition; and
    [d[k].append(x)] on the [defaultdict] puts [x] behind what [k] held,
    starting from the empty list for a key that was not there. *)
Theorem dict_store_and_lookup (V A : Type) :
  (forall (d : dict V) (k : nat) (v : V),
     dict_get (dict_set d k v) k = Some v
     /\ (forall k', k' <> k -> dict_get (dict_set d k v) k' = dict_get d k')
     /\ map fst (dict_set d k v)
        = match dict_get d k with
          | Some _ => map fst d
          | None => map fst d ++ [k]
          end
     /\ (unique_keys d -> unique_keys (dict_set d k v)))
  /\ (forall (d : dict (list A)) (k : nat) (x : A),
        dict_get (defaultdict_append d k x) k
        = Some (match dict_get d k with Some l => l | None => [] end ++ [x])
        /\ (forall k', k' <> k ->
              dict_get (defaultdict_append d k x) k' = dict_get d k')).
Proof.
  split.
  - intros d k v. split; [apply dict_get_set_same|].
    split; [intros k'; apply dict_get_set_other|].
    split; [apply dict_set_keys|].
    unfold unique_keys. rewrite dict_set_keys.
    destruct (dict_get d k) eqn:G; [auto|]. intros Hn.
    apply NoDup_app; [exact Hn | repeat constructor; intros [] |].
    intros x Hx [<-|[]]. now apply dict_get_None_keys in G.
  - intros d k x. unfold defaultdict_append.
    destruct (dict_get d k) as [l|]; split;
      try apply dict_get_set_same; intros k'; apply dict_get_set_other.
Qed.

(** ** The collected spans *)

Lemma dict_extend_app (A : Type) (d : dict (list A)) (k : nat) (l1 l2 : list A) :
  dict_extend (dict_extend d k l1) k l2 = dict_extend d k (l1 ++ l2).
Proof.
  destruct l1 as [|x l1]; [reflexivity|].
  destruct l2 as [|y l2]; [now rewrite app_nil_r|].
  unfold dict_extend at 2. unfold dict_extend at 2. simpl app.
  destruct (dict_get d k) as [l0|] eqn:G; unfold dict_extend;
    rewrite dict_get_set_same, dict_set_set; [|reflexivity].
  now rewrite <- app_assoc.
Qed.

Lemma fold_dict_extend (A B : Type) (f : B -> list A) (k : nat) (xs : list B)
  (d : dict (list A)) :
  fold_left (fun d x => dict_extend d k (f x)) xs d
  = dict_extend d k (flat_map f xs).
Proof.
  revert d. induction xs as [|x xs IH]; intros d; simpl; [reflexivity|].
  now rewrite IH, dict_extend_app.
Qed.

Lemma fold_left_ext (A B : Type) (f g : A -> B -> A) (xs : list B) (a : A) :
  (forall a x, f a x = g a x) -> fold_left f xs a = fold_left g xs a.
Proof.
  intros H. revert a. induction xs as [|x xs IH]; intros a; simpl;
    [reflexivity|]. now rewrite H, IH.
Qed.

Lemma flat_map_flat_map (A B C : Type) (f : B -> list C) (g : A -> list B)
  (l : list A) :
  flat_map f (flat_map g l) = flat_map (fun x => flat_map f (g x)) l.
Proof.
  induction l as [|x l IH]; simpl; [reflexivity|].
  now rewrite flat_map_app, IH.
Qed.

Section CollectedSpans.
Context {U : Unicode} {F : Fitz}.

Lemma add_span_extend (tbs : list rect) (page_num : nat)
  (d : dict (list span)) (rs : raw_span) :
  add_span tbs page_num d rs = dict_extend d page_num (kept tbs page_num rs).
Proof.
  unfold add_span, kept.
  destruct (negb (is_valid_heading (normalize_text (raw_text rs))));
    [reflexivity|].
  now destruct (existsb _ tbs).
Qed.

Lemma add_line_extend (tbs : list rect) (page_num : nat)
  (d : dict (list span)) (ln : raw_line) :
  add_line tbs page_num d ln
  = dict_extend d page_num (flat_map (kept tbs page_num) (spans ln)).
Proof.
  unfold add_line. rewrite <- fold_dict_extend.
  apply fold_left_ext. intros. apply add_span_extend.
Qed.

Lemma add_block_extend (tbs : list rect) (page_num : nat)
  (d : dict (list span)) (b : raw_block) :
  add_block tbs page_num d b
  = dict_extend d page_num
      (flat_map (kept tbs page_num) (flat_map spans (block_lines b))).
Proof.
  assert (H : forall ls, fold_left (add_line tbs page_num) ls d
              = dict_extend d page_num
                  (flat_map (kept tbs page_num) (flat_map spans ls))).
  { intros ls. rewrite flat_map_flat_map, <- fold_dict_extend.
    apply fold_left_ext. intros. apply add_line_extend. }
  unfold add_block, block_lines. destruct (lines b) as [ls|]; [|reflexivity].
  destruct (block_type b) as [[|[| |]|]|]; try apply H; reflexivity.
Qed.

Lemma add_page_extend (d : dict (list span)) (p : nat * raw_page) :
  add_page d p = dict_extend d (fst p) (page_spans (fst p) (snd p)).
Proof.
  unfold add_page, page_spans, fragments.
  rewrite flat_map_flat_map, <- fold_dict_extend.
  apply fold_left_ext. intros. apply add_block_extend.
Qed.

Lemma extract_spans_from (doc : document) (a : nat) (d : dict (list span)) :
  (forall k, In k (map fst d) -> (k < a)%nat) ->
  fold_left add_page (combine (seq a (List.length doc)) doc) d
  = d ++ flat_map (fun p => match page_spans (fst p) (snd p) with
                            | [] => []
                            | l => [(fst p, l)]
                            end)
            (combine (seq a (List.length doc)) doc).
Proof.
  revert a d. induction doc as [|pg doc IH]; intros a d Hd; simpl.
  - now rewrite app_nil_r.
  - rewrite add_page_extend. simpl fst. simpl snd.
    assert (G : dict_get d a = None).
    { apply dict_get_None_keys. intros Hin. apply Hd in Hin. lia. }
    destruct (page_spans a pg) as [|s l] eqn:E.
    + simpl. apply IH. intros k Hk. apply Hd in Hk. lia.
    + unfold dict_extend. rewrite G, (@dict_set_new _ d a (s :: l) G), IH.
      * now rewrite <- app_assoc.
      * intros k Hk. rewrite map_app in Hk. apply in_app_or in Hk.
        destruct Hk as [Hk|[<-|[]]]; [apply Hd in Hk|]; simpl; lia.
Qed.

Lemma extract_spans_eq (doc : document) : extract_spans doc = collected doc.
Proof.
  unfold extract_spans, collected.
  rewrite extract_spans_from; [reflexivity | intros k []].
Qed.
End CollectedSpans.

Lemma bold_is_bit_1 (flags : Z) :
  negb (Z.eqb (Z.land flags 2) 0) = Z.testbit flags 1.
Proof.
  assert (Hbits : forall n, (0 <= n)%Z ->
            Z.testbit (Z.land flags 2) n = Z.testbit flags n && Z.eqb 1 n).
  { intros n Hn. rewrite Z.land_spec. f_equal.
    change 2%Z with (2 ^ 1)%Z. apply Z.pow2_bits_eqb. lia. }
  destruct (Z.testbit flags 1) eqn:B.
  - apply negb_true_iff, Z.eqb_neq. intros E.
    specialize (Hbits 1%Z ltac:(lia)). rewrite E, B in Hbits.
    discriminate.
  - apply negb_false_iff, Z.eqb_eq. apply Z.bits_inj_0. intros n.
    destruct (Z.ltb_spec n 0) as [Hn|Hn]; [now apply Z.testbit_neg_r|].
    rewrite (Hbits n Hn). destruct (Z.eqb_spec 1 n) as [<-|_].
    + now rewrite B.
    + apply andb_false_r.
Qed.

Lemma sorted_keys_NoDup (l : list nat) :
  StronglySorted Nat.lt l -> NoDup l.
Proof.
  induction 1 as [|x l _ IH Hx]; constructor; [|exact IH].
  intros Hin. rewrite Forall_forall in Hx. specialize (Hx x Hin).
  unfold Nat.lt in Hx. lia.
Qed.

Lemma In_dict_get (V : Type) (d : dict V) (k : nat) (v : V) :
  NoDup (map fst d) -> In (k, v) d -> dict_get d k = Some v.
Proof.
  induction d as [|[k0 v0] d IH]; simpl; [intros _ []|].
  intros Hn [[= -> ->]|Hin].
  - now rewrite Nat.eqb_refl.
  - inversion Hn as [|? ? Hk0 Hd]; subst.
    destruct (Nat.eqb_spec k0 k) as [->|_]; [|now apply IH].
    exfalso. apply Hk0. apply in_map_iff. now exists (k, v).
Qed.

Lemma nth_error_combine_seq (A : Type) (l : list A) (a n : nat) (x : A) :
  nth_error l n = Some x -> In ((a + n)%nat, x) (combine (seq a (List.length l)) l).
Proof.
  revert a n. induction l as [|y l IH]; intros a [|n]; simpl; try discriminate.
  - intros [= ->]. left. f_equal. lia.
  - intros H. right. replace (a + S n)%nat with (S a + n)%nat by lia.
    now apply IH.
Qed.

Section CollectedFacts.
Context {U : Unicode} {F : Fitz}.

Lemma kept_In (tbs : list rect) (page_num : nat) (rs : raw_span) (s : span) :
  In s (kept tbs page_num rs) <->
  is_valid_heading (normalize_text (raw_text rs)) = true
  /\ (forall tb, In tb tbs -> intersects (raw_bbox rs) tb = false)
  /\ s = {| text := normalize_text (raw_text rs);
            font_size := round1 (raw_size rs);
            is_bold := negb (Z.eqb (Z.land (raw_flags rs) 2) 0);
            bbox := raw_bbox rs;
            page := page_num |}.
Proof.
  unfold kept.
  destruct (is_valid_heading (normalize_text (raw_text rs))); simpl;
    [|split; [intros [] | intros [? _]; discriminate]].
  destruct (existsb _ tbs) eqn:E; simpl.
  - split; [intros []|]. intros (_ & Hno & _).
    apply existsb_exists in E. destruct E as (tb & Htb & Hi).
    rewrite (Hno tb Htb) in Hi. discriminate.
  - split.
    + intros [<-|[]]. split; [reflexivity|]. split; [|reflexivity].
      intros tb Htb. destruct (intersects (raw_bbox rs) tb) eqn:Hi; [|reflexivity].
      rewrite <- E. symmetry. apply existsb_exists. now exists tb.
    + intros (_ & _ & ->). now left.
Qed.

Lemma collected_from_keys (doc : document) (a : nat) :
  let d := flat_map (fun p => match page_spans (fst p) (snd p) with
                              | [] => []
                              | l => [(fst p, l)]
                              end)
             (combine (seq a (List.length doc)) doc) in
  StronglySorted Nat.lt (map fst d)
  /\ forall k, In k (map fst d) -> (a <= k)%nat.
Proof.
  revert a. induction doc as [|pg doc IH]; intros a; simpl.
  - split; [constructor | intros k []].
  - destruct (IH (S a)) as [Hs Hk].
    destruct (page_spans a pg) as [|s l]; simpl.
    + split; [exact Hs|]. intros k Hin. apply Hk in Hin. lia.
    + split.
      * constructor; [exact Hs|]. apply Forall_forall.
        intros k Hin. apply Hk in Hin. unfold Nat.lt. lia.
      * intros k [<-|Hin]; [lia|]. apply Hk in Hin. lia.
Qed.

Lemma collected_In (doc : document) (k : nat) (l : list span) :
  In (k, l) (collected doc) <->
  exists pg, nth_error doc k = Some pg /\ l = page_spans k pg /\ l <> [].
Proof.
  unfold collected. rewrite in_flat_map. split.
  - intros ([p pg] & Hin & Hl). apply combine_seq_nth in Hin.
    destruct Hin as [_ Hn]. rewrite Nat.sub_0_r in Hn. simpl in Hl.
    destruct (page_spans p pg) as [|s l0] eqn:E; [destruct Hl|].
    destruct Hl as [[= <- <-]|[]]. exists pg. rewrite E.
    repeat split; [exact Hn | discriminate].
  - intros (pg & Hn & -> & Hne). exists (k, pg). split.
    + apply (nth_error_combine_seq _ 0) in Hn. exact Hn.
    + simpl. destruct (page_spans k pg) as [|s l0]; [congruence | now left].
Qed.

(** X7: the dict of [extract_spans] has one entry for every page with at
    least one valid fragment outside the tables, in the order of the pages,
    and the list of a page holds the spans of these fragments in the order
    in which the blocks, lines and spans of the page come; a page without
    such a fragment, and a number that is no page, is no key. *)
Theorem extract_spans_collected (doc : document) :
  extract_spans doc = collected doc
  /\ forall k,
       dict_get (extract_spans doc) k =
       match nth_error doc k with
       | Some pg =>
           match page_spans k pg with
           | [] => None
           | l => Some l
           end
       | None => None
       end.
Proof.
  split; [apply extract_spans_eq|]. intros k. rewrite extract_spans_eq.
  assert (Hn : NoDup (map fst (collected doc)))
    by (apply sorted_keys_NoDup; apply (collected_from_keys doc 0)).
  assert (Hnone : (forall l, ~ In (k, l) (collected doc)) ->
                  dict_get (collected doc) k = None).
  { intros H. apply dict_get_None_keys. intros Hin.
    apply in_map_iff in Hin. destruct Hin as ([k' l] & E & Hin).
    simpl in E. subst k'. now apply (H l). }
  destruct (nth_error doc k) as [pg|] eqn:E.
  - destruct (page_spans k pg) as [|s l] eqn:P.
    + apply Hnone. intros l Hin. apply collected_In in Hin.
      destruct Hin as (pg' & Hpg' & -> & Hne). rewrite E in Hpg'.
      injection Hpg' as <-. congruence.
    + apply In_dict_get; [exact Hn|]. apply collected_In.
      exists pg. rewrite P. repeat split; [exact E | discriminate].
  - apply Hnone. intros l Hin. apply collected_In in Hin.
    destruct Hin as (pg' & Hpg' & _). congruence.
Qed.

(** X8: the keys of the dict of [extract_spans] are page numbers of the
    document in rising order, none twice, and no list is empty; every span
    of the list of page [k] stems from a fragment of page [k]: its text is
    the normalized text of the fragment and a valid heading, its size the
    rounded size, it is bold exactly when bit 1 of the flags is set, its box
    is the box of the fragment and meets no buffered table of the page, and
    its page is [k]. *)
Theorem extract_spans_sound (doc : document) :
  StronglySorted Nat.lt (map fst (extract_spans doc))
  /\ forall k l, In (k, l) (extract_spans doc) ->
       (k < List.length doc)%nat /\ l <> []
       /\ dict_get (extract_spans doc) k = Some l
       /\ forall s, In s l ->
            exists pg rs,
              nth_error doc k = Some pg /\ In rs (fragments pg)
              /\ text s = normalize_text (raw_text rs)
              /\ is_valid_heading (text s) = true
              /\ font_size s = round1 (raw_size rs)
              /\ is_bold s = Z.testbit (raw_flags rs) 1
              /\ bbox s = raw_bbox rs
              /\ page s = k
              /\ forall tb, In tb (table_bboxes pg) ->
                   intersects (bbox s) tb = false.
Proof.
  rewrite extract_spans_eq.
  assert (Hs : StronglySorted Nat.lt (map fst (collected doc)))
    by apply (collected_from_keys doc 0).
  split; [exact Hs|]. intros k l Hin.
  assert (G : dict_get (collected doc) k = Some l)
    by (apply In_dict_get; [now apply sorted_keys_NoDup | exact Hin]).
  apply collected_In in Hin. destruct Hin as (pg & Hn & -> & Hne).
  split; [apply nth_error_Some; congruence|]. split; [exact Hne|].
  split; [exact G|]. intros s Hs'. unfold page_spans in Hs'.
  apply in_flat_map in Hs'. destruct Hs' as (rs & Hrs & Hk).
  apply kept_In in Hk. destruct Hk as (V & Hno & ->). simpl.
  exists pg, rs. rewrite bold_is_bit_1. repeat split; auto.
Qed.

(** X9: a fragment of a page whose normalized text is a valid heading and
    whose box meets no buffered table of the page is collected: its span is
    in the list that the dict holds for that page. *)
Theorem extract_spans_complete (doc : document) (k : nat) (pg : raw_page)
  (rs : raw_span) :
  nth_error doc k = Some pg -> In rs (fragments pg) ->
  is_valid_heading (normalize_text (raw_text rs)) = true ->
  (forall tb, In tb (table_bboxes pg) -> intersects (raw_bbox rs) tb = false) ->
  exists l,
    dict_get (extract_spans doc) k = Some l
    /\ In {| text := normalize_text (raw_text rs);
             font_size := round1 (raw_size rs);
             is_bold := Z.testbit (raw_flags rs) 1;
             bbox := raw_bbox rs;
             page := k |} l.
Proof.
  intros Hn Hrs V Hno. rewrite extract_spans_eq.
  assert (Hin : In {| text := normalize_text (raw_text rs);
                      font_size := round1 (raw_size rs);
                      is_bold := Z.testbit (raw_flags rs) 1;
                      bbox := raw_bbox rs;
                      page := k |} (page_spans k pg)).
  { unfold page_spans. apply in_flat_map. exists rs. split; [exact Hrs|].
    apply kept_In. rewrite bold_is_bit_1. auto. }
  exists (page_spans k pg). split; [|exact Hin].
  apply In_dict_get.
  - apply sorted_keys_NoDup. apply (collected_from_keys doc 0).
  - apply collected_In. exists pg. repeat split; [exact Hn|].
    intros E. rewrite E in Hin. destruct Hin.
Qed.
End CollectedFacts.

Lemma extract_spans_complete_witness :
  exists l,
    dict_get (@extract_spans ascii_tables overlap_fitz page_with_table) 0 = Some l
    /\ In {| text := @normalize_text ascii_tables (lit "Overview");
             font_size := round1 18;
             is_bold := Z.testbit 16 1;
             bbox := Rect 50 100 200 120;
             page := 0 |} l.
Proof.
  refine (@extract_spans_complete ascii_tables overlap_fitz page_with_table
            0%nat _ (RawSpan (lit "Overview") 18 16 (Rect 50 100 200 120))
            _ _ _ _).
  - reflexivity.
  - left. reflexivity.
  - vm_compute. reflexivity.
  - intros tb [<-|[]]. vm_compute. reflexivity.
Defined.

(** ** More on the title *)

Lemma sort_by_fixed (A : Type) (lt : A -> A -> bool) (l : list A) :
  StronglySorted (fun a b => lt b a = false) l -> sort_by lt l = l.
Proof.
  induction 1 as [|x l Hs IH Hx]; simpl; [reflexivity|].
  rewrite IH. destruct l as [|y l]; [reflexivity|]. simpl.
  inversion Hx as [|? ? Hy _]; subst. now rewrite Hy.
Qed.

Lemma extract_title_nonempty {U : Unicode} (spans_page0 : list span) :
  spans_page0 <> [] ->
  extract_title spans_page0 =
  let sorted := sort_by size_desc_then_top spans_page0 in
  let title_text :=
    strip (join (lit " ") (merge_lines (title_candidates sorted))) in
  if rejected_title title_text then (([], []), sorted)
  else ((title_text, title_candidates sorted), sorted).
Proof. destruct spans_page0; [congruence | reflexivity]. Qed.

Lemma title_candidates_nonempty (sorted : list span) :
  sorted <> [] -> title_candidates sorted <> [].
Proof.
  destruct sorted as [|first rest]; [congruence|]. intros _.
  unfold title_candidates. apply sort_by_nonempty. simpl.
  rewrite Z.eqb_refl. discriminate.
Qed.

(** X11: [extract_title] returns an empty title exactly when it returns no
    title spans; a title that is not empty has at least 2 characters, is not
    made of non-word characters and underscores only, neither starts nor
    ends with white space, and its spans are spans of the page. *)
Theorem extract_title_result {U : Unicode} (spans_page0 : list span) :
  let title_text := fst (fst (extract_title spans_page0)) in
  let title_spans := snd (fst (extract_title spans_page0)) in
  (title_text = [] <-> title_spans = [])
  /\ (title_text <> [] ->
      (MIN_HEADING_LEN <= len title_text)%nat
      /\ Re.match_anchored re_symbols title_text = false
      /\ (forall c rest, title_text = c :: rest -> isspace c = false)
      /\ (forall c front, title_text = front ++ [c] -> isspace c = false))
  /\ (forall s, In s title_spans -> In s spans_page0).
Proof.
  intros title_text title_spans.
  split; [|split; [|intros s; apply extract_title_spans_In]].
  - unfold title_text, title_spans.
    destruct spans_page0 as [|s0 l0]; [simpl; tauto|].
    rewrite extract_title_nonempty by discriminate. cbv zeta.
    destruct (rejected_title _) eqn:R; cbn [fst snd]; [tauto|].
    unfold rejected_title in R. apply orb_false_iff in R. destruct R as [R _].
    apply orb_false_iff in R. destruct R as [R _]. apply negb_false_iff in R.
    split; intros E.
    + rewrite E in R. discriminate.
    + exfalso. revert E. apply title_candidates_nonempty, sort_by_nonempty.
      discriminate.
  - unfold title_text. destruct spans_page0 as [|s0 l0]; [simpl; congruence|].
    rewrite extract_title_nonempty by discriminate. cbv zeta.
    destruct (rejected_title _) eqn:R; cbn [fst snd]; [congruence|]. intros _.
    unfold rejected_title in R. apply orb_false_iff in R. destruct R as [R R3].
    apply orb_false_iff in R. destruct R as [_ R2]. apply Nat.ltb_ge in R2.
    split; [exact R2|]. split; [exact R3|].
    split; [apply strip_head | apply strip_last].
Qed.

(** X12: a second call of [extract_title] on the list as the first call left
    it returns what the first call returned and leaves the list as it is. *)
Theorem extract_title_twice {U : Unicode} (spans_page0 : list span) :
  extract_title (snd (extract_title spans_page0)) = extract_title spans_page0.
Proof.
  rewrite extract_title_after.
  destruct spans_page0 as [|s0 l0]; [reflexivity|].
  assert (Hne : sort_by size_desc_then_top (s0 :: l0) <> [])
    by (apply sort_by_nonempty; discriminate).
  rewrite (extract_title_nonempty Hne), extract_title_nonempty by discriminate.
  rewrite sort_by_fixed; [reflexivity|].
  apply sort_by_sorted;
    [apply size_desc_then_top_asym | apply size_desc_then_top_cotrans].
Qed.

(** ** More on the heading levels *)

(** X13: of the title spans [assign_heading_levels] uses the set of their
    texts only: title spans with the same texts, in any order and number,
    give the same headings. *)
Theorem title_lines_matter_as_text_set {U : Unicode}
  (spans_by_page : dict (list span)) (title_lines title_lines' : list span) :
  (forall t, In t (map text title_lines) <-> In t (map text title_lines')) ->
  assign_heading_levels spans_by_page title_lines
  = assign_heading_levels spans_by_page title_lines'.
Proof.
  intros H.
  assert (E : filtered_spans spans_by_page title_lines
              = filtered_spans spans_by_page title_lines').
  { unfold filtered_spans. apply filter_ext. intros s. f_equal.
    destruct (existsb (str_eqb (text s)) (map text title_lines)) eqn:E1;
    destruct (existsb (str_eqb (text s)) (map text title_lines')) eqn:E2;
      try reflexivity.
    - apply existsb_str_eqb, H, existsb_str_eqb in E1. congruence.
    - apply existsb_str_eqb, H, existsb_str_eqb in E2. congruence. }
  unfold assign_heading_levels. now rewrite E.
Qed.

Lemma title_lines_matter_as_text_set_witness :
  @assign_heading_levels ascii_tables plain_page
    [ Span (lit "Hello there") (pt 30) true (box 0 1) 0 ]
  = @assign_heading_levels ascii_tables plain_page
      [ Span (lit "Hello there") (pt 12) false (box 10 22) 0;
        Span (lit "Hello there") (pt 30) true (box 0 1) 0 ].
Proof.
  apply (@title_lines_matter_as_text_set ascii_tables).
  intros t. simpl. tauto.
Defined.

(** X14: when the sizes of the spans that are left after the title texts
    are taken out are not negative and below 2^53, every heading stems from
    such a span, and the rank of its level is the rank of the size of that
    span among the distinct sizes: H1 for the largest size (and the span is
    bold), H2 for the second, H3 for the third.  So the thresholds made up
    when fewer than three sizes exist label nothing: with two sizes there is
    no H3, with one size neither H2 nor H3. *)
Theorem heading_level_is_size_rank {U : Unicode}
  (spans_by_page : dict (list span)) (title_lines : list span) (h : heading) :
  In h (assign_heading_levels spans_by_page title_lines) ->
  (forall s, In s (filtered_spans spans_by_page title_lines) ->
     (0 <= font_size s < pt (2 ^ 53))%Z) ->
  let filtered := filtered_spans spans_by_page title_lines in
  (exists s, In s filtered
     /\ text s = Heading.text h /\ page s = Heading.page h
     /\ nth_error (sorted_sizes filtered)
          (Z.to_nat (level_rank (Heading.level h) - 1))
        = Some (font_size s)
     /\ (Heading.level h = H1 -> is_bold s = true))
  /\ (Z.to_nat (level_rank (Heading.level h))
      <= List.length (sorted_sizes filtered))%nat.
Proof.
  intros Hh Hbound filtered.
  apply assign_heading_levels_In, raw_headings_In in Hh.
  destruct Hh as (s & l & Hs & Hl & _ & ->). fold filtered in Hs, Hl. simpl.
  assert (Hin : In (font_size s) (sorted_sizes filtered))
    by (apply sorted_sizes_In; now exists s).
  pose proof (sorted_sizes_sorted filtered) as Hsorted.
  pose proof (sorted_sizes_bounded filtered Hbound) as Hb53.
  assert (Hn : nth_error (sorted_sizes filtered) (Z.to_nat (level_rank l - 1))
               = Some (font_size s)
               /\ (l = H1 -> is_bold s = true)).
  { rewrite thresholds_cases in Hl. unfold level_of in Hl.
    assert (Hord : match sorted_sizes filtered with
                   | a :: b :: c :: _ => (c < b < a)%Z
                   | [a; b] => (float_sub b (pt 1) < b < a)%Z
                   | [a] => (float_sub (float_sub a (pt 1)) (pt 1)
                             < float_sub a (pt 1) < a)%Z
                   | [] => True
                   end).
    { destruct (sorted_sizes filtered) as [|a [|b [|c rest]]]; auto.
      - apply float_sub_twice, Hb53. now left.
      - split.
        + assert (Hb : (0 <= b < pt (2 ^ 53))%Z)
            by (apply Hb53; right; now left).
          apply (@float_sub_one b). pose proof pt_pos as Hp.
          assert (H2 : pt 2 = (2 * pt 1)%Z) by (unfold pt; ring). lia.
        + inversion Hsorted as [|? ? _ Ha]; subst. now inversion Ha.
      - inversion Hsorted as [|? ? Hs' Ha]; subst.
        inversion Ha as [|? ? Hab _]; subst.
        inversion Hs' as [|? ? _ Hb]; subst. inversion Hb; subst. lia. }
    clear Hb53.
    destruct (sorted_sizes filtered) as [|a [|b [|c rest]]];
      cbv beta iota zeta in Hl; simpl in Hin;
      destruct (is_bold s) eqn:B;
      repeat match type of Hl with
             | context [Z.eqb ?x ?y] => destruct (Z.eqb_spec x y)
             end;
      simpl in Hl; try discriminate Hl; try (exfalso; intuition lia);
      injection Hl as <-; simpl;
      (split; [congruence | intros; (reflexivity || discriminate)]). }
  destruct Hn as [Hn Hb]. split.
  - exists s. auto.
  - assert (Hlt : (Z.to_nat (level_rank l - 1)
                   < List.length (sorted_sizes filtered))%nat)
      by (apply nth_error_Some; congruence).
    clear - Hlt. destruct l; unfold level_rank in *;
      [ change (Z.to_nat (1 - 1)) with 0%nat in Hlt; change (Z.to_nat 1) with 1%nat
      | change (Z.to_nat (2 - 1)) with 1%nat in Hlt; change (Z.to_nat 2) with 2%nat
      | change (Z.to_nat (3 - 1)) with 2%nat in Hlt; change (Z.to_nat 3) with 3%nat ];
      exact Hlt.
Qed.

Lemma heading_level_is_size_rank_witness :
  (Z.to_nat (level_rank H2)
   <= List.length
        (sorted_sizes
           (filtered_spans (one_page (box 10 40) (box 60 80) (box 90 102))
              [ Span (lit "Title Text") (pt 30) true (box 10 40) 0 ])))%nat.
Proof.
  apply (@heading_level_is_size_rank ascii_tables
           (one_page (box 10 40) (box 60 80) (box 90 102))
           [ Span (lit "Title Text") (pt 30) true (box 10 40) 0 ]
           (Heading.Make H2 (lit "sub note") 0)).
  - vm_compute. right. left. reflexivity.
  - intros s Hs. vm_compute in Hs.
    destruct Hs as [<-|[<-|[]]]; (vm_compute; split; [discriminate | reflexivity]).
Defined.

Lemma first_occurrences_NoDup_id (hs : list heading) :
  NoDup hs -> first_occurrences hs = hs.
Proof.
  induction 1 as [|h hs Hh _ IH]; simpl; [reflexivity|].
  rewrite IH. f_equal. apply forallb_filter_id. apply forallb_forall.
  intros x Hx. apply negb_true_iff, heading_eqb_neq. intros ->. contradiction.
Qed.

(** X15: the loop that removes duplicates returns a list without
    repetition that has the headings of its input; it returns a list without
    repetition as it is, and so does nothing when run a second time. *)
Theorem remove_duplicates_spec (hs : list heading) :
  NoDup (remove_duplicates hs)
  /\ (forall h, In h (remove_duplicates hs) <-> In h hs)
  /\ (NoDup hs -> remove_duplicates hs = hs)
  /\ remove_duplicates (remove_duplicates hs) = remove_duplicates hs
  /\ (List.length (remove_duplicates hs) <= List.length hs)%nat.
Proof.
  rewrite !remove_duplicates_first.
  split; [apply first_occurrences_NoDup|].
  split; [intros h; apply first_occurrences_In|].
  split; [apply first_occurrences_NoDup_id|].
  split; [apply first_occurrences_NoDup_id, first_occurrences_NoDup|].
  induction hs as [|h hs IH]; simpl; [apply le_n|].
  apply le_n_S. etransitivity; [apply filter_length_le | exact IH].
Qed.

(** ** The whole extraction *)

Lemma dict_set_same_elements (A : Type) (d : dict (list A)) (k : nat)
  (l0 l' : list A) :
  dict_get d k = Some l0 -> (forall x, In x l' <-> In x l0) ->
  forall x, In x (List.concat (values (dict_set d k l')))
            <-> In x (List.concat (values d)).
Proof.
  intros G Hl x. revert G. induction d as [|[k0 v0] d IH]; simpl;
    [discriminate|].
  destruct (Nat.eqb k0 k); simpl.
  - intros [= ->]. rewrite !in_app_iff, Hl. reflexivity.
  - intros G. rewrite !in_app_iff. fold (values d).
    fold (values (dict_set d k l')). rewrite (IH G). reflexivity.
Qed.

Lemma strict_sorted_unique (l1 l2 : list Z) :
  StronglySorted (fun a b => (b < a)%Z) l1 ->
  StronglySorted (fun a b => (b < a)%Z) l2 ->
  (forall x, In x l1 <-> In x l2) -> l1 = l2.
Proof.
  intros H1. revert l2. induction H1 as [|a t1 Ht1 IH Ha]; intros l2 H2 Hin.
  - destruct l2 as [|b t2]; [reflexivity|].
    destruct (proj2 (Hin b) (or_introl eq_refl)).
  - destruct H2 as [|b t2 Ht2 Hb].
    + destruct (proj1 (Hin a) (or_introl eq_refl)).
    + rewrite Forall_forall in Ha, Hb.
      assert (Eab : a = b).
      { destruct (proj1 (Hin a) (or_introl eq_refl)) as [E|Hat2]; [auto|].
        destruct (proj2 (Hin b) (or_introl eq_refl)) as [E|Hbt1]; [auto|].
        specialize (Ha b Hbt1). specialize (Hb a Hat2). lia. }
      subst b. f_equal. apply IH; [exact Ht2|]. intros x. split; intros Hx.
      * destruct (proj1 (Hin x) (or_intror Hx)) as [E|H]; [|exact H].
        specialize (Ha x Hx). lia.
      * destruct (proj2 (Hin x) (or_intror Hx)) as [E|H]; [|exact H].
        specialize (Hb x Hx). lia.
Qed.

Lemma sorted_sizes_same_spans (f1 f2 : list span) :
  (forall s, In s f1 <-> In s f2) -> sorted_sizes f1 = sorted_sizes f2.
Proof.
  intros H. apply strict_sorted_unique; try apply sorted_sizes_sorted.
  intros x. rewrite !sorted_sizes_In.
  split; intros (s & Hs & E); exists s; (split; [now apply H | exact E]).
Qed.

Lemma assign_heading_levels_NoDup {U : Unicode}
  (spans_by_page : dict (list span)) (title_lines : list span) :
  NoDup (assign_heading_levels spans_by_page title_lines).
Proof.
  rewrite assign_heading_levels_eq.
  apply (Permutation_NoDup (Permutation_sym (sort_by_perm _ _))).
  apply first_occurrences_NoDup.
Qed.

Lemma assign_heading_levels_same_spans {U : Unicode}
  (d1 d2 : dict (list span)) (title_lines : list span) :
  (forall s, In s (List.concat (values d1)) <-> In s (List.concat (values d2))) ->
  forall h, In h (assign_heading_levels d1 title_lines)
            <-> In h (assign_heading_levels d2 title_lines).
Proof.
  intros H h.
  assert (Hf : forall s, In s (filtered_spans d1 title_lines)
                         <-> In s (filtered_spans d2 title_lines))
    by (intros s; rewrite !filtered_spans_In, H; reflexivity).
  rewrite !assign_heading_levels_In, !raw_headings_In.
  rewrite (@sorted_sizes_same_spans _ _ Hf).
  split; intros (s & l & Hs & Hrest); exists s, l;
    (split; [now apply Hf | exact Hrest]).
Qed.

(** X16: that [extract_title] sorts the list of page 0 inside the dict does
    not change which headings come out: the outline holds the same headings,
    each once, as [assign_heading_levels] gives on the dict as it was before
    the title was extracted. *)
Theorem title_sort_keeps_the_headings {U : Unicode}
  (spans_by_page : dict (list span)) :
  Permutation
    (headings (build_outline spans_by_page))
    (assign_heading_levels spans_by_page
       (snd (fst (extract_title (page0_of spans_by_page))))).
Proof.
  unfold build_outline.
  pose proof (extract_title_after (page0_of spans_by_page)) as Hafter.
  destruct (extract_title (page0_of spans_by_page))
    as [[title_text title_lines] page0_after]. simpl in *. subst page0_after.
  apply NoDup_Permutation; try apply assign_heading_levels_NoDup.
  apply assign_heading_levels_same_spans. intros s.
  unfold after_title, page0_of.
  destruct (dict_get spans_by_page 0) as [l0|] eqn:G; [|reflexivity].
  apply (@dict_set_same_elements _ _ _ _ _ G). intros x. apply sort_by_In.
Qed.

(** X17: every heading of the outline of a document carries the number of
    one of its pages, and the spans of the title are spans collected on
    page 0. *)
Theorem outline_pages_exist {U : Unicode} {F : Fitz} (doc : document) :
  (forall h, In h (headings (extract_outline_from_pdf doc)) ->
     (Heading.page h < List.length doc)%nat)
  /\ (forall s,
        In s (snd (fst (extract_title (page0_of (extract_spans doc))))) ->
        page s = 0%nat /\ (0 < List.length doc)%nat
        /\ exists l, dict_get (extract_spans doc) 0 = Some l /\ In s l).
Proof.
  pose proof (extract_spans_outside doc) as Hout. split.
  - intros h Hh. unfold extract_outline_from_pdf, build_outline in Hh.
    pose proof (@after_title_In U (extract_spans doc)) as Hafter.
    destruct (extract_title (page0_of (extract_spans doc)))
      as [[title_text title_lines] page0_after]. simpl in Hh, Hafter.
    apply assign_heading_levels_sound in Hh.
    destruct Hh as (_ & _ & s & Hs & _ & Hpage).
    apply concat_values_In in Hs. destruct Hs as (k & l & Hl & Hs).
    destruct (Hafter k l s Hl Hs) as (l' & Hl' & Hs').
    destruct (Hout _ _ _ Hl' Hs') as (Hk & pg & Hpg & _).
    rewrite <- Hpage, Hk. apply nth_error_Some. congruence.
  - intros s Hs. apply extract_title_spans_In in Hs.
    unfold page0_of in Hs.
    destruct (dict_get (extract_spans doc) 0) as [l|] eqn:G; [|destruct Hs].
    destruct (Hout _ _ _ (@dict_get_In _ _ _ _ G) Hs) as (Hk & pg & Hpg & _).
    split; [exact Hk|]. split; [apply nth_error_Some; congruence|].
    now exists l.
Qed.

(** X18: a document in which no page has a valid fragment outside the
    tables, and so a document without pages, gives the empty title and the
    empty outline. *)
Theorem nothing_collected_gives_empty_outline {U : Unicode} {F : Fitz}
  (doc : document) :
  (forall k pg, nth_error doc k = Some pg -> page_spans k pg = []) ->
  extract_spans doc = []
  /\ extract_outline_from_pdf doc = Outline [] [].
Proof.
  intros H.
  assert (E : extract_spans doc = []).
  { rewrite extract_spans_eq. unfold collected. apply flat_map_nil.
    intros [k pg] Hin. apply combine_seq_nth in Hin. destruct Hin as [_ Hn].
    rewrite Nat.sub_0_r in Hn. simpl. now rewrite (H k pg Hn). }
  split; [exact E|]. unfold extract_outline_from_pdf. now rewrite E.
Qed.

Lemma nothing_collected_gives_empty_outline_witness :
  @extract_outline_from_pdf ascii_tables overlap_fitz
    [ RawPage [ RawBlock (Some [ RawLine [ RawSpan (lit "Page 7") 9 0 (Rect 0 0 1 1) ] ])
                  (Some 0%Z);
                RawBlock (Some [ RawLine [ RawSpan (lit "Figure") 30 0 (Rect 0 0 1 1) ] ])
                  (Some 1%Z) ]
        [] ]
  = Outline [] [].
Proof.
  apply (@nothing_collected_gives_empty_outline ascii_tables overlap_fitz).
  intros [|[|k]] pg; simpl; try discriminate.
  intros [= <-]. vm_compute. reflexivity.
Defined.

(** ** The names of the files that [main] writes *)

Lemma replace_from_pass (new stem rest : str) :
  (forall c, In c stem -> c <> 46%N) ->
  replace_from (lit ".pdf") new 0 (stem ++ rest)
  = stem ++ replace_from (lit ".pdf") new 0 rest.
Proof.
  induction stem as [|c stem IH]; intros H; [reflexivity|].
  assert (Hc : c <> 46%N) by (apply H; now left).
  change ((c :: stem) ++ rest) with (c :: (stem ++ rest)).
  cbn [replace_from].
  assert (E : startswith (lit ".pdf") (c :: stem ++ rest) = false).
  { change (lit ".pdf") with [46; 112; 100; 102]%N. cbn [startswith].
    apply andb_false_iff. left. apply N.eqb_neq. congruence. }
  rewrite E. simpl. f_equal. apply IH. intros x Hx. apply H. now right.
Qed.

Lemma replace_from_hit (new rest : str) :
  replace_from (lit ".pdf") new 0 (lit ".pdf" ++ rest)
  = new ++ replace_from (lit ".pdf") new 0 rest.
Proof. reflexivity. Qed.

(** X19: in the name of the output file every ".pdf" becomes ".json", not
    only the one at the end: a part without a dot is kept, the ".pdf" behind
    it is replaced, and the rest is treated in the same way; so "stem.pdf"
    is written to "stem.json". *)
Theorem output_name_replaces_every_pdf (stem rest : str) :
  (forall c, In c stem -> c <> 46%N) ->
  output_name (stem ++ lit ".pdf" ++ rest)
  = stem ++ lit ".json" ++ output_name rest
  /\ output_name (stem ++ lit ".pdf") = stem ++ lit ".json".
Proof.
  intros H. unfold output_name, replace.
  change (lit ".pdf") with [46; 112; 100; 102]%N at 1 4 7.
  cbv iota. split.
  - now rewrite replace_from_pass, replace_from_hit.
  - rewrite <- (app_nil_r (lit ".pdf")) at 2.
    now rewrite replace_from_pass, replace_from_hit.
Qed.

Lemma output_name_replaces_every_pdf_witness :
  output_name (lit "report" ++ lit ".pdf" ++ lit ".old.pdf")
  = lit "report" ++ lit ".json" ++ output_name (lit ".old.pdf").
Proof.
  apply (@output_name_replaces_every_pdf (lit "report") (lit ".old.pdf")).
  intros c Hc. simpl in Hc.
  repeat (destruct Hc as [<-|Hc]; [discriminate|]). destruct Hc.
Defined.

Lemma ascii_lower_inv (c y : char) :
  ascii_lower c = y -> c = y \/ ((c + 32)%N = y /\ (65 <= c <= 90)%N).
Proof.
  unfold ascii_lower, ascii_isupper.
  destruct ((65 <=? c)%N && (c <=? 90)%N) eqn:E; [|now left].
  apply andb_true_iff in E. destruct E as [E1 E2].
  apply N.leb_le in E1. apply N.leb_le in E2. intros <-. right. lia.
Qed.

Lemma endswith_app (suffix s : str) : endswith suffix (s ++ suffix) = true.
Proof.
  unfold endswith. rewrite rev_app_distr.
  induction (rev suffix) as [|c l IH]; simpl; [reflexivity|].
  unfold char_eqb. now rewrite N.eqb_refl.
Qed.

(** X20: a file whose extension is ".pdf" written with a capital letter
    anywhere passes the filter of [main], but its name holds no ".pdf" to
    replace: the output file gets the name of the input file, extension
    included. *)
Theorem capital_extension_keeps_its_name {C : CaseMap} (HC : CaseMapFacts C)
  (stem ext : str) :
  all_ascii stem = true -> (forall c, In c stem -> c <> 46%N) ->
  map ascii_lower ext = lit ".pdf" -> ext <> lit ".pdf" ->
  is_pdf (stem ++ ext) = true
  /\ output_name (stem ++ ext) = stem ++ ext.
Proof.
  intros Ha Hdot Hext Hne.
  destruct ext as [|c0 [|c1 [|c2 [|c3 [|c4 ext]]]]]; try discriminate.
  injection Hext as E0 E1 E2 E3.
  apply ascii_lower_inv in E0, E1, E2, E3.
  assert (H0 : c0 = 46%N) by lia.
  assert (H1 : c1 = 112%N \/ c1 = 80%N) by lia.
  assert (H2 : c2 = 100%N \/ c2 = 68%N) by lia.
  assert (H3 : c3 = 102%N \/ c3 = 70%N) by lia.
  clear E0 E1 E2 E3. subst c0. split.
  - unfold is_pdf. rewrite lower_ascii.
    + rewrite map_app.
      destruct H1 as [-> | ->], H2 as [-> | ->], H3 as [-> | ->];
        exact (endswith_app (lit ".pdf") (map ascii_lower stem)).
    + rewrite all_ascii_app, Ha.
      destruct H1 as [-> | ->], H2 as [-> | ->], H3 as [-> | ->];
        vm_compute; reflexivity.
  - unfold output_name, replace.
    change (lit ".pdf") with [46; 112; 100; 102]%N. cbv iota.
    change [46; 112; 100; 102]%N with (lit ".pdf").
    rewrite (replace_from_pass _ _ _ Hdot). f_equal.
    destruct H1 as [-> | ->], H2 as [-> | ->], H3 as [-> | ->];
      try (vm_compute; reflexivity).
    exfalso. now apply Hne.
Qed.

Lemma capital_extension_keeps_its_name_witness :
  @is_pdf ascii_case (upper_name (lit "REPORT")) = true
  /\ output_name (upper_name (lit "REPORT")) = upper_name (lit "REPORT").
Proof.
  apply (@capital_extension_keeps_its_name ascii_case
           (Build_CaseMapFacts ascii_case (fun s _ => eq_refl))
           (lit "REPORT") (lit ".PDF")).
  - reflexivity.
  - intros c Hc. simpl in Hc.
    repeat (destruct Hc as [<-|Hc]; [discriminate|]). destruct Hc.
  - reflexivity.
  - discriminate.
Defined.
